(** * partnerutils.etl_utils: ArcGIS helper functions

    A shallow embedding of [src/partnerutils/etl_utils.py].

    The module wraps the ArcGIS content-store SDK.  The SDK is an external
    collaborator: it is modelled by a small in-memory content store (items,
    feature layers, a search backend) together with a fault script that
    decides which SDK calls raise.  Every SDK call is recorded, with its
    arguments and its outcome, in a trace. *)

From Stdlib Require Import ZArith QArith Qround String Ascii List Lia Bool.
From stdpp Require Import base option gmap strings list fin_maps pretty.

Close Scope Q_scope.
Local Open Scope string_scope.

(** ** Python values, exceptions, results *)

(** Values that may appear in an item-properties dictionary. *)
#[local] Unset Elimination Schemes.
Inductive PyVal :=
| VNone
| VBool (b : bool)
| VInt (n : Z)
| VStr (s : string)
| VList (l : list PyVal).
#[local] Set Elimination Schemes.

Inductive Exn :=
| TypeError (msg : string)   (* json.dumps on an object that is not serialisable *)
| IndexError (msg : string)  (* [xs[0]] on an empty sequence *)
| SdkError (msg : string).   (* whatever the content-store SDK raises *)

Inductive Result (A : Type) :=
| Ok (a : A)
| Raise (e : Exn).
Arguments Ok {A} a.
Arguments Raise {A} e.

Definition is_ok {A} (r : Result A) : bool :=
  match r with Ok _ => true | Raise _ => false end.

(** ** Handles and SDK calls *)

(** [item.id] of an [arcgis.gis.Item]. *)
Record Item := ItemH { item_id : nat }.

(** An [arcgis.features.FeatureLayer]. *)
Record FeatureLayer := LayerH { layer_id : nat }.

(** The index definition built by [create_scratch_layer]. *)
Record IndexDef := mkIndex {
  name : string;
  fields : option string;        (* the [uid_field] argument, as passed *)
  isUnique : bool;
  description : string
}.

(** The dictionary handed to [add_to_definition]: [{"indexes": [...]}]. *)
Record AddDict := mkAddDict { indexes : list IndexDef }.

(** One SDK call, with its arguments and its outcome. *)
Inductive Event :=
| content_add (properties : gmap string PyVal) (data : string) (r : Result Item)
| item_delete (item : Item) (r : Result bool)
| item_publish (item : Item) (r : Result Item)
| item_layers (item : Item) (r : Result (list FeatureLayer))
| content_clone_items (items : list Item) (copy_data : bool) (r : Result (list Item))
| layer_append (layer : FeatureLayer) (item_id : nat) (upload_format : string)
    (upsert : bool) (upsert_matching_field : option string) (r : Result bool)
| manager_add_to_definition (layer : FeatureLayer) (json_dict : AddDict) (r : Result bool)
| content_search (query : string) (r : Result (list Item)).

(** ** The world: temp directory, content store, fault script, trace *)

Record ItemRec := mkItemRec {
  it_props : gmap string PyVal;
  it_data : option string;       (* path of the uploaded file, if any *)
  it_layers : list nat           (* ids of the sub-layers, in order *)
}.

Record AppendRec := mkAppendRec {
  ap_item : nat;
  ap_format : string;
  ap_upsert : bool;
  ap_field : option string
}.

Record LayerRec := mkLayerRec {
  lr_indexes : list IndexDef;    (* indexes in the layer definition *)
  lr_appends : list AppendRec    (* append jobs the layer has accepted *)
}.

Record World := mkWorld {
  tmpfiles : gmap string string;         (* temp files on disk: path -> content *)
  tmp_seq : nat;                         (* source of temp file names *)
  store_items : gmap nat ItemRec;        (* the content store *)
  store_layers : gmap nat LayerRec;      (* hosted feature layers *)
  next_id : nat;                         (* source of item and layer ids *)
  publish_sublayers : nat;               (* sub-layers a publish job creates *)
  search_index : string → list Item;     (* the search backend *)
  faults : list (option Exn);            (* one entry per SDK call; [Some e] raises *)
  trace : list Event                     (* SDK calls so far, oldest first *)
}.

Definition set_tmpfiles (f : gmap string string → gmap string string) (w : World) : World :=
  mkWorld (f (tmpfiles w)) (tmp_seq w) (store_items w) (store_layers w) (next_id w)
          (publish_sublayers w) (search_index w) (faults w) (trace w).
Definition set_tmp_seq (n : nat) (w : World) : World :=
  mkWorld (tmpfiles w) n (store_items w) (store_layers w) (next_id w)
          (publish_sublayers w) (search_index w) (faults w) (trace w).
Definition set_items (f : gmap nat ItemRec → gmap nat ItemRec) (w : World) : World :=
  mkWorld (tmpfiles w) (tmp_seq w) (f (store_items w)) (store_layers w) (next_id w)
          (publish_sublayers w) (search_index w) (faults w) (trace w).
Definition set_layers (f : gmap nat LayerRec → gmap nat LayerRec) (w : World) : World :=
  mkWorld (tmpfiles w) (tmp_seq w) (store_items w) (f (store_layers w)) (next_id w)
          (publish_sublayers w) (search_index w) (faults w) (trace w).
Definition set_next_id (n : nat) (w : World) : World :=
  mkWorld (tmpfiles w) (tmp_seq w) (store_items w) (store_layers w) n
          (publish_sublayers w) (search_index w) (faults w) (trace w).
Definition set_faults (fs : list (option Exn)) (w : World) : World :=
  mkWorld (tmpfiles w) (tmp_seq w) (store_items w) (store_layers w) (next_id w)
          (publish_sublayers w) (search_index w) fs (trace w).
Definition log (ev : Event) (w : World) : World :=
  mkWorld (tmpfiles w) (tmp_seq w) (store_items w) (store_layers w) (next_id w)
          (publish_sublayers w) (search_index w) (faults w) (trace w ++ [ev]).

(** ** The state-and-exception monad *)

Definition M (A : Type) : Type := World → Result A * World.

Definition ret {A} (a : A) : M A := fun w => (Ok a, w).
Definition raise {A} (e : Exn) : M A := fun w => (Raise e, w).
Definition bind {A B} (m : M A) (k : A → M B) : M B := fun w =>
  match m w with
  | (Ok a, w1) => k a w1
  | (Raise e, w1) => (Raise e, w1)
  end.

Notation "x <- m ;; k" := (bind m (fun x => k))
  (at level 100, m at next level, right associativity).
Notation "m ;;; k" := (bind m (fun _ => k))
  (at level 100, right associativity).

(** [try: body finally: fin].  The finaliser runs on every exit of the body.
    If it raises, its exception is the one that propagates; otherwise the
    outcome of the body stands. *)
Definition try_finally {A} (body : M A) (fin : M unit) : M A := fun w =>
  let '(r, w1) := body w in
  match fin w1 with
  | (Ok _, w2) => (r, w2)
  | (Raise e, w2) => (Raise e, w2)
  end.

(** [xs[0]] *)
Definition getitem0 {A} (xs : list A) : M A :=
  match xs with
  | x :: _ => ret x
  | [] => raise (IndexError "list index out of range")
  end.

(** ** Temporary files *)

Definition tmp_name (suffix : string) (w : World) : string :=
  "/tmp/tmp" ++ pretty (tmp_seq w) ++ suffix.

(** [with tempfile.NamedTemporaryFile(mode="w", suffix=suffix) as fp: body].
    The file exists while the body runs and is removed when the block is
    left, whether the body returned or raised.  [fp] is modelled by its
    name. *)
Definition with_NamedTemporaryFile {A} (suffix : string) (body : string → M A) : M A :=
  fun w =>
    let fp := tmp_name suffix w in
    let w0 := set_tmp_seq (S (tmp_seq w)) (set_tmpfiles (insert fp EmptyString) w) in
    let '(r, w1) := body fp w0 in
    (r, set_tmpfiles (delete fp) w1).

(** [fp.write(s)] *)
Definition fp_write (fp : string) (s : string) : M unit := fun w =>
  (Ok tt, set_tmpfiles (alter (fun old => old ++ s) fp) w).

(** ** The content-store SDK *)

(** Every SDK call consumes one entry of the fault script and is logged with
    its outcome.  An exhausted script means no more faults. *)
Definition next_fault (fs : list (option Exn)) : option Exn :=
  match fs with
  | Some e :: _ => Some e
  | _ => None
  end.

Definition sdk_call {A} (ev : Result A → Event) (act : World → Result A * World) : M A :=
  fun w =>
    let w0 := set_faults (tail (faults w)) w in
    match next_fault (faults w) with
    | Some e => (Raise e, log (ev (Raise e)) w0)
    | None => let '(r, w1) := act w0 in (r, log (ev r) w1)
    end.

(** [gis.content.add(properties, data=path)] *)
Definition gis_content_add (properties : gmap string PyVal) (data : string) : M Item :=
  sdk_call (content_add properties data) (fun w =>
    match tmpfiles w !! data with
    | None => (Raise (SdkError "file not found"), w)
    | Some _ =>
        let i := next_id w in
        (Ok (ItemH i),
         set_next_id (S i)
           (set_items (insert i (mkItemRec properties (Some data) [])) w))
    end).

(** [item.delete()] *)
Definition delete_item (item : Item) : M bool :=
  sdk_call (item_delete item) (fun w =>
    match store_items w !! item_id item with
    | None => (Raise (SdkError "item does not exist"), w)
    | Some _ => (Ok true, set_items (delete (item_id item)) w)
    end).

(** Fresh, empty feature layers with ids [i, i+1, ..., i+n-1]. *)
Fixpoint fresh_layers (n i : nat) (ls : gmap nat LayerRec) : gmap nat LayerRec :=
  match n with
  | O => ls
  | S n' => <[i := mkLayerRec [] []]> (fresh_layers n' (S i) ls)
  end.

(** [item.publish()]: a new feature-service item with
    [publish_sublayers] empty sub-layers. *)
Definition publish (item : Item) : M Item :=
  sdk_call (item_publish item) (fun w =>
    match store_items w !! item_id item with
    | None => (Raise (SdkError "item does not exist"), w)
    | Some rec =>
        let i := next_id w in
        let n := publish_sublayers w in
        let props := <["type" := VStr "Feature Service"]> (it_props rec) in
        (Ok (ItemH i),
         set_next_id (S i + n)
           (set_layers (fresh_layers n (S i))
              (set_items (insert i (mkItemRec props None (seq (S i) n))) w)))
    end).

(** [item.layers] *)
Definition layers (item : Item) : M (list FeatureLayer) :=
  sdk_call (item_layers item) (fun w =>
    match store_items w !! item_id item with
    | None => (Raise (SdkError "item does not exist"), w)
    | Some rec => (Ok (LayerH <$> it_layers rec), w)
    end).

(** Clone the sub-layers [src] of a template: same definition, and the same
    rows only when [copy_data] is set. *)
Fixpoint clone_layers (copy_data : bool) (src : list nat) (i : nat)
    (ls : gmap nat LayerRec) : gmap nat LayerRec :=
  match src with
  | [] => ls
  | l :: src' =>
      let old := default (mkLayerRec [] []) (ls !! l) in
      let new := mkLayerRec (lr_indexes old) (if copy_data then lr_appends old else []) in
      <[i := new]> (clone_layers copy_data src' (S i) ls)
  end.

Fixpoint clone_each (copy_data : bool) (templates : list Item) (w : World)
    : Result (list Item) * World :=
  match templates with
  | [] => (Ok [], w)
  | t :: ts =>
      match store_items w !! item_id t with
      | None => (Raise (SdkError "item does not exist"), w)
      | Some rec =>
          let i := next_id w in
          let n := length (it_layers rec) in
          let w1 :=
            set_next_id (S i + n)
              (set_layers (clone_layers copy_data (it_layers rec) (S i))
                 (set_items (insert i (mkItemRec (it_props rec) None (seq (S i) n))) w)) in
          match clone_each copy_data ts w1 with
          | (Ok rest, w2) => (Ok (ItemH i :: rest), w2)
          | (Raise e, w2) => (Raise e, w2)
          end
      end
  end.

(** [gis.content.clone_items(items, copy_data=copy_data)] *)
Definition gis_content_clone_items (items : list Item) (copy_data : bool) : M (list Item) :=
  sdk_call (content_clone_items items copy_data) (clone_each copy_data items).

(** [layer.append(item_id=..., upload_format=..., upsert=..., upsert_matching_field=...)] *)
Definition append (layer : FeatureLayer) (item_id : nat) (upload_format : string)
    (upsert : bool) (upsert_matching_field : option string) : M bool :=
  sdk_call (layer_append layer item_id upload_format upsert upsert_matching_field) (fun w =>
    match store_layers w !! layer_id layer, store_items w !! item_id with
    | Some lr, Some _ =>
        let job := mkAppendRec item_id upload_format upsert upsert_matching_field in
        (Ok true,
         set_layers (insert (layer_id layer)
                       (mkLayerRec (lr_indexes lr) (lr_appends lr ++ [job]))) w)
    | None, _ => (Raise (SdkError "layer does not exist"), w)
    | _, None => (Raise (SdkError "item does not exist"), w)
    end).

(** [layer.manager.add_to_definition(json_dict)] *)
Definition add_to_definition (layer : FeatureLayer) (json_dict : AddDict) : M bool :=
  sdk_call (manager_add_to_definition layer json_dict) (fun w =>
    match store_layers w !! layer_id layer with
    | None => (Raise (SdkError "layer does not exist"), w)
    | Some lr =>
        (Ok true,
         set_layers (insert (layer_id layer)
                       (mkLayerRec (lr_indexes lr ++ indexes json_dict) (lr_appends lr))) w)
    end).

(** [gis.content.search(query)] *)
Definition gis_content_search (query : string) : M (list Item) :=
  sdk_call (content_search query) (fun w => (Ok (search_index w query), w)).

(** ** The module [etl_utils] *)

Definition DEFAULT_TITLE : string := "GeoJSON Utils POC".
Definition DEFAULT_TAG : string := "geojson-utils-poc".

(** [d.pop(key, dflt)]: the value under [key] (or [dflt]) and the dictionary
    without [key]. *)
Definition pop (key : string) (dflt : PyVal) (d : gmap string PyVal)
    : PyVal * gmap string PyVal :=
  (default dflt (d !! key), delete key d).

(** The dictionary literal
    [{**item_options, 'type': 'GeoJson', 'title': title, 'tags': tags}]:
    later keys win. *)
Definition item_properties (item_options : gmap string PyVal) (title tags : PyVal)
    : gmap string PyVal :=
  <["tags" := tags]> (<["title" := title]> (<["type" := VStr "GeoJson"]> item_options)).

(** Python truthiness of [None] or a string, as in [if uid_field:] and
    [tags if tags else DEFAULT_TAG]. *)
Definition truthy (s : option string) : bool :=
  match s with
  | None => false
  | Some EmptyString => false
  | Some _ => true
  end.

(** The one-character string holding a double quote. *)
Definition dq : string := String (ascii_of_nat 34) EmptyString.

(** ['tags:"{0}" AND type:"Feature Service"'.format(t)] *)
Definition search_query (t : string) : string :=
  "tags:" ++ dq ++ t ++ dq ++ " AND type:" ++ dq ++ "Feature Service" ++ dq.

Section etl_utils.

(** The GeoJSON payload is an opaque object; [json_dumps] is [json.dumps],
    which raises [TypeError] (here [None]) on an object it cannot serialise. *)
Context {GeoJSON : Type} (json_dumps : GeoJSON → option string).

Definition dumps (geojson : GeoJSON) : M string :=
  match json_dumps geojson with
  | Some s => ret s
  | None => raise (TypeError "Object is not JSON serializable")
  end.

Definition add_geojson (geojson : GeoJSON) (item_options : gmap string PyVal) : M Item :=
  let '(title, item_options) := pop "title" (VStr DEFAULT_TITLE) item_options in
  let '(tags, item_options) := pop "tags" (VStr DEFAULT_TAG) item_options in
  item <- with_NamedTemporaryFile ".geojson" (fun fp =>
    s <- dumps geojson ;;
    fp_write fp s ;;;
    gis_content_add (item_properties item_options title tags) fp) ;;
  ret item.

Definition append_to_layer (layer : FeatureLayer) (geojson : GeoJSON)
    (uid_field : option string) : M bool :=
  item <- add_geojson geojson {["title" := VStr "Dataminr update"]} ;;
  result <- try_finally
    (append layer (item_id item) "geojson" (bool_decide (uid_field ≠ None)) uid_field)
    (delete_item item ;;; ret tt) ;;
  ret result.

Definition create_layer (geojson : GeoJSON) (template_item : Item) : M Item :=
  results <- gis_content_clone_items [template_item] false ;;
  item <- getitem0 results ;;
  lyrs <- layers item ;;
  lyr <- getitem0 lyrs ;;
  append_to_layer lyr geojson None ;;;
  ret item.

Definition create_scratch_layer (geojson : GeoJSON) (uid_field : option string)
    (item_options : gmap string PyVal) : M Item :=
  item <- add_geojson geojson item_options ;;
  lyr_item <- try_finally (publish item) (delete_item item ;;; ret tt) ;;
  (if truthy uid_field then
     let new_index := mkIndex "External UID" uid_field true
                        "External UID for upsert operations" in
     let add_dict := mkAddDict [new_index] in
     lyrs <- layers lyr_item ;;
     lyr <- getitem0 lyrs ;;
     add_to_definition lyr add_dict ;;;
     ret tt
   else ret tt) ;;;
  ret lyr_item.

Definition get_existing_item (tags : option string) : M (option Item) :=
  let t := if truthy tags then default EmptyString tags else DEFAULT_TAG in
  search_items <- gis_content_search (search_query t) ;;
  ret (match search_items with
       | x :: _ => Some x
       | [] => None
       end).

End etl_utils.


(** ** Dates: the part of [datetime] that the two formatters use

    Dates follow CPython's [datetime]: proleptic Gregorian ordinals, with
    the conversions [_ymd2ord] and [_ord2ymd].  The host's time zone is a
    fixed offset from UTC.  The quotient [timestamp / 1000] is a double in
    Python; here it is a rational number about which nothing is assumed, so
    that what is proved holds whichever double the division yields. *)

Local Open Scope Z_scope.

(** A [datetime.datetime].  [tzinfo] is [None] for a naive value and
    [Some off] for an aware one whose UTC offset is [off] seconds. *)
Record datetime := mkdatetime {
  year : Z; month : Z; day : Z;
  hour : Z; minute : Z; second : Z;
  microsecond : Z;
  tzinfo : option Z
}.

(** [datetime.timezone.utc] *)
Definition timezone_utc : Z := 0.

Definition MAXORDINAL : Z := 3652059.   (* date(9999, 12, 31).toordinal() *)
Definition EPOCH_ORDINAL : Z := 719163. (* date(1970, 1, 1).toordinal() *)
Definition DI400Y : Z := 146097.
Definition DI100Y : Z := 36524.
Definition DI4Y : Z := 1461.

Definition DAYS_IN_MONTH : list Z :=
  [-1; 31; 28; 31; 30; 31; 30; 31; 31; 30; 31; 30; 31].
Definition DAYS_BEFORE_MONTH : list Z :=
  [-1; 0; 31; 59; 90; 120; 151; 181; 212; 243; 273; 304; 334].

Definition tbl (t : list Z) (i : Z) : Z := nth (Z.to_nat i) t 0.

Definition is_leap (y : Z) : bool :=
  (y mod 4 =? 0) && (negb (y mod 100 =? 0) || (y mod 400 =? 0)).

Definition days_before_year (y : Z) : Z :=
  let y := y - 1 in y * 365 + y / 4 - y / 100 + y / 400.

Definition days_before_month (y m : Z) : Z :=
  tbl DAYS_BEFORE_MONTH m + (if (2 <? m) && is_leap y then 1 else 0).

(** Proleptic Gregorian ordinal of a date; 0001-01-01 is day 1. *)
Definition ymd2ord (y m d : Z) : Z :=
  days_before_year y + days_before_month y m + d.

(** The date of an ordinal. *)
Definition ord2ymd (n : Z) : Z * Z * Z :=
  let n := n - 1 in
  let n400 := n / DI400Y in
  let n := n mod DI400Y in
  let y := n400 * 400 + 1 in
  let n100 := n / DI100Y in
  let n := n mod DI100Y in
  let n4 := n / DI4Y in
  let n := n mod DI4Y in
  let n1 := n / 365 in
  let n := n mod 365 in
  let y := y + n100 * 100 + n4 * 4 + n1 in
  if (n1 =? 4) || (n100 =? 4) then (y - 1, 12, 31)
  else
    let leapyear := (n1 =? 3) && (negb (n4 =? 24) || (n100 =? 3)) in
    let m := (n + 50) / 32 in
    let preceding := tbl DAYS_BEFORE_MONTH m + (if (2 <? m) && leapyear then 1 else 0) in
    if n <? preceding then
      let m := m - 1 in
      let preceding :=
        preceding - (tbl DAYS_IN_MONTH m + (if (m =? 2) && leapyear then 1 else 0)) in
      (y, m, n - preceding + 1)
    else (y, m, n - preceding + 1).

(** Seconds from the start of day 0 to the wall-clock reading of [d]. *)
Definition wall_seconds (d : datetime) : Z :=
  ymd2ord (year d) (month d) (day d) * 86400
  + hour d * 3600 + minute d * 60 + second d.

(** Is the day of wall-clock second [s] a day of the years 1..9999? *)
Definition in_range (s : Z) : bool :=
  (1 <=? s / 86400) && (s / 86400 <=? MAXORDINAL).

(** The datetime whose wall clock reads [s] seconds after the start of day 0;
    [OverflowError] (here [None]) outside the years 1..9999. *)
Definition of_wall_seconds (s us : Z) (tz : option Z) : option datetime :=
  let n := s / 86400 in
  let r := s mod 86400 in
  if in_range s then
    let '(y, m, d) := ord2ymd n in
    Some (mkdatetime y m d (r / 3600) (r mod 3600 / 60) (r mod 60) us tz)
  else None.

(** Rounding to the nearest integer, ties to even. *)
Definition round_half_even (q : Q) : Z :=
  let f := Qfloor q in
  match Qcompare (q - inject_Z f) (1 # 2) with
  | Lt => f
  | Gt => f + 1
  | Eq => if Z.even f then f else f + 1
  end.

(** The whole seconds and the microseconds of a timestamp, as
    [fromtimestamp] splits it: floor, microseconds rounded half to even,
    and the carry when they round up to a full second. *)
Definition timestamp_parts (seconds : Q) : Z * Z :=
  let whole := Qfloor seconds in
  let us := round_half_even ((seconds - inject_Z whole) * inject_Z 1000000)%Q in
  if 1000000 <=? us then (whole + 1, us - 1000000) else (whole, us).

(** [s.zfill(width)] *)
Definition zfill (width : nat) (s : string) : string :=
  (String.concat EmptyString (replicate (width - String.length s) "0") ++ s)%string.

(** [%m], [%d], [%H], [%M], [%S]: the number in decimal, zero-padded to two
    places; [%Y]: to four. *)
Definition pad2 (n : Z) : string := zfill 2 (pretty (Z.to_N n)).
Definition pad4 (n : Z) : string := zfill 4 (pretty (Z.to_N n)).

(** [date.strftime('%m/%d/%Y %H:%M:%S')] *)
Definition strftime_ags (date : datetime) : string :=
  (pad2 (month date) ++ "/" ++ pad2 (day date) ++ "/" ++ pad4 (year date) ++ " "
   ++ pad2 (hour date) ++ ":" ++ pad2 (minute date) ++ ":" ++ pad2 (second date))%string.

Section Dates.

(** The UTC offset, in seconds, of the host's local time zone. *)
Variable local_utcoffset : Z.

(** [a / b] on two integers is a double; a double is a rational number, and
    which one the division yields is left open. *)
Variable truediv : Z → Z → Q.

(** [datetime.datetime.fromtimestamp(seconds)]: the naive local time of the
    instant [seconds] after the epoch. *)
Definition fromtimestamp (seconds : Q) : option datetime :=
  let '(whole, us) := timestamp_parts seconds in
  of_wall_seconds (EPOCH_ORDINAL * 86400 + whole + local_utcoffset) us None.

(** [date.astimezone(tz)]: a naive value is taken to be local time. *)
Definition astimezone (date : datetime) (tz : Z) : option datetime :=
  let offset := default local_utcoffset (tzinfo date) in
  of_wall_seconds (wall_seconds date - offset + tz) (microsecond date) (Some tz).

Definition date_to_ags (date : datetime) : option string :=
  let tz := timezone_utc in
  strftime_ags <$> astimezone date tz.

Definition timestamp_to_ags (timestamp : Z) : option string :=
  let seconds := truediv timestamp 1000 in
  match fromtimestamp seconds with
  | Some date => date_to_ags date
  | None => None
  end.

(** The instant of a timestamp, in whole seconds since the start of day 0. *)
Definition instant_seconds (timestamp : Z) : Z :=
  EPOCH_ORDINAL * 86400 + (timestamp_parts (truediv timestamp 1000)).1.

(** A timestamp is valid when its instant falls in the years 1..9999 both on
    the local clock and on the UTC clock. *)
Definition valid_timestamp (timestamp : Z) : bool :=
  in_range (instant_seconds timestamp + local_utcoffset) &&
  in_range (instant_seconds timestamp).

End Dates.




(** [p] holds of [i], ..., [i + n - 1]. *)
Fixpoint all_from (n : nat) (i : Z) (p : Z → bool) : bool :=
  match n with
  | O => true
  | S k => p i && all_from k (i + 1) p
  end.

(** What is checked of day [r] of the 400-year cycle. *)
Definition day_ok (r : Z) : bool :=
  let '(y, m, d) := ord2ymd (r + 1) in
  (1 <=? y) && (y <=? 400) && (1 <=? m) && (m <=? 12) && (1 <=? d) && (d <=? 31)
  && (ymd2ord y m d =? r + 1) && (implb (r <? DI400Y - 366) (y <=? 399)).


(** * Properties *)

Local Close Scope Z_scope.
Local Open Scope list_scope.

(** The SDK calls a computation makes when started in [w]. *)
Definition events {A} (m : M A) (w : World) : list Event :=
  drop (length (trace w)) (trace (m w).2).

(** What the properties dictionary built by [add_geojson] holds. *)
Definition resolved_properties (item_options : gmap string PyVal) : gmap string PyVal :=
  item_properties (delete "tags" (delete "title" item_options))
    (default (VStr DEFAULT_TITLE) (item_options !! "title"))
    (default (VStr DEFAULT_TAG) (delete "title" item_options !! "tags")).

(** The index definition that [create_scratch_layer] builds for a key. *)
Definition external_uid_index (uid : option string) : IndexDef :=
  mkIndex "External UID" uid true "External UID for upsert operations".





(** ** A concrete store and host for the examples *)

(** A store with one feature-service item (id 3) whose only sub-layer is
    the layer with id 7; the next id handed out is 10, a publish job creates
    one sub-layer, searches find nothing and no fault is scheduled. *)
Definition example_world : World :=
  mkWorld ∅ 0
    (<[3%nat := mkItemRec {["title" := VStr "Template"]} None [7%nat]]> ∅)
    (<[7%nat := mkLayerRec [] []]> ∅)
    10 1 (fun _ => []) [] [].

(** A fault that an SDK call may raise. *)
Definition sdk_failure : Exn := SdkError "request failed".

(** Division carried out exactly. *)
Definition exact_div (a b : Z) : Q := (inject_Z a / inject_Z b)%Q.

(** A store whose only item (id 4) has no sub-layers, and where a publish
    job creates none. *)
Definition bare_world : World :=
  mkWorld ∅ 0 (<[4%nat := mkItemRec ∅ None []]> ∅) ∅ 10 0 (fun _ => []) [] [].

(** A second fault, to tell two failures apart. *)
Definition other_failure : Exn := SdkError "timed out".

(** Symbolic execution of the monad and of the store operations. *)
Ltac exec :=
  unfold bind, ret, raise, try_finally, getitem0, sdk_call, with_NamedTemporaryFile,
    fp_write, dumps, pop, gis_content_add, delete_item, publish, layers,
    gis_content_clone_items, append, add_to_definition, gis_content_search;
  cbn [set_tmpfiles set_tmp_seq set_items set_layers set_next_id set_faults log
       tmpfiles tmp_seq store_items store_layers next_id publish_sublayers
       search_index faults trace fst snd item_id layer_id
       it_props it_data it_layers lr_indexes lr_appends indexes
       seq fmap list_fmap fresh_layers clone_each clone_layers length].

Lemma lookup_written (fp s : string) (m : gmap string string) :
  alter (fun old => old +:+ s) fp (<[fp := EmptyString]> m) !! fp = Some s.
Proof. by rewrite lookup_alter_eq, lookup_insert_eq. Qed.

Ltac maps :=
  repeat first
    [ rewrite lookup_written
    | rewrite lookup_insert_eq
    | rewrite lookup_delete_eq
    | rewrite lookup_insert_ne by lia
    | rewrite lookup_delete_ne by lia ].

(** One branching point of a run: the next fault, a store lookup, a list. *)
Ltac step :=
  match goal with
  | H : ?x = _ |- context [match ?x with _ => _ end] => rewrite H
  | |- context [match next_fault ?fs with _ => _ end] => destruct (next_fault fs) eqn:?
  | |- context [match @lookup ?K ?V ?M ?I ?k ?m with _ => _ end] =>
      destruct (@lookup K V M I k m) eqn:?
  | |- context [if truthy ?u then _ else _] => destruct (truthy u) eqn:?
  | |- context [match ?l with [] => _ | _ :: _ => _ end] => destruct l eqn:?
  end.

Ltac run := repeat (exec; maps; try step); simplify_eq.

Lemma events_app {A} (m : M A) (w : World) (evs : list Event) :
  trace (m w).2 = trace w ++ evs → events m w = evs.
Proof. unfold events. intros ->. apply drop_app_length. Qed.

Lemma resolved_properties_type opts :
  resolved_properties opts !! "type" = Some (VStr "GeoJson").
Proof. unfold resolved_properties, item_properties. by simplify_map_eq. Qed.

Lemma resolved_properties_title opts :
  resolved_properties opts !! "title" = Some (default (VStr DEFAULT_TITLE) (opts !! "title")).
Proof. unfold resolved_properties, item_properties. by simplify_map_eq. Qed.

Lemma resolved_properties_tags opts :
  resolved_properties opts !! "tags" = Some (default (VStr DEFAULT_TAG) (opts !! "tags")).
Proof. unfold resolved_properties, item_properties. by simplify_map_eq. Qed.

Lemma resolved_properties_other opts k :
  k ≠ "type" → k ≠ "title" → k ≠ "tags" → resolved_properties opts !! k = opts !! k.
Proof. intros. unfold resolved_properties, item_properties. by simplify_map_eq. Qed.

(** ** One SDK call at a time *)

Lemma fresh_layers_first n i ls :
  fresh_layers (S n) i ls !! i = Some (mkLayerRec [] []).
Proof. cbn [fresh_layers]. apply lookup_insert_eq. Qed.

Lemma publish_run item w :
  ∃ r w1,
    publish item w = (r, w1) ∧
    trace w1 = trace w ++ [item_publish item r] ∧
    tmpfiles w1 = tmpfiles w ∧
    match r with
    | Ok pub =>
        pub = ItemH (next_id w) ∧
        (∃ rec, store_items w1 !! next_id w = Some rec ∧
                it_layers rec = seq (S (next_id w)) (publish_sublayers w)) ∧
        (∀ j, j ≠ next_id w → store_items w1 !! j = store_items w !! j) ∧
        store_layers w1
          = fresh_layers (publish_sublayers w) (S (next_id w)) (store_layers w)
    | Raise e =>
        store_items w1 = store_items w ∧ store_layers w1 = store_layers w
    end.
Proof.
  destruct w as [tf ts si sl ni ps sx fl tr].
  destruct (publish _ _) as [r w1] eqn:Heq. exists r, w1. split; [done|].
  revert Heq. run; intros [= <- <-]; cbn; repeat split; try done.
  - eexists. by rewrite lookup_insert_eq.
  - intros j Hj. by rewrite lookup_insert_ne.
Qed.

Lemma delete_item_run item w :
  ∃ r w1,
    delete_item item w = (r, w1) ∧
    trace w1 = trace w ++ [item_delete item r] ∧
    tmpfiles w1 = tmpfiles w ∧
    store_layers w1 = store_layers w ∧
    store_items w1
      = (if is_ok r then delete (item_id item) (store_items w) else store_items w).
Proof.
  destruct w as [tf ts si sl ni ps sx fl tr].
  destruct (delete_item _ _) as [r w1] eqn:Heq. exists r, w1. split; [done|].
  revert Heq. run; intros [= <- <-]; cbn; by repeat split.
Qed.

Lemma layers_run item w :
  ∃ r w1,
    layers item w = (r, w1) ∧
    trace w1 = trace w ++ [item_layers item r] ∧
    tmpfiles w1 = tmpfiles w ∧
    store_items w1 = store_items w ∧
    store_layers w1 = store_layers w ∧
    ∀ lyrs, r = Ok lyrs →
      ∃ rec, store_items w !! item_id item = Some rec ∧ lyrs = LayerH <$> it_layers rec.
Proof.
  destruct w as [tf ts si sl ni ps sx fl tr].
  destruct (layers _ _) as [r w1] eqn:Heq. exists r, w1. split; [done|].
  revert Heq. run; intros [= <- <-]; cbn; repeat split; try done; intros; simplify_eq; eauto.
Qed.

Lemma add_to_definition_run layer d w :
  ∃ r w1,
    add_to_definition layer d w = (r, w1) ∧
    trace w1 = trace w ++ [manager_add_to_definition layer d r] ∧
    tmpfiles w1 = tmpfiles w ∧
    store_items w1 = store_items w ∧
    (is_ok r →
     ∃ lr, store_layers w !! layer_id layer = Some lr ∧
           store_layers w1
             = <[layer_id layer := mkLayerRec (lr_indexes lr ++ indexes d) (lr_appends lr)]>
                 (store_layers w)).
Proof.
  destruct w as [tf ts si sl ni ps sx fl tr].
  destruct (add_to_definition _ _ _) as [r w1] eqn:Heq. exists r, w1. split; [done|].
  revert Heq. run; intros [= <- <-]; cbn; repeat split; try done; eauto.
Qed.

Lemma clone_each_trace copy_data items w :
  trace (clone_each copy_data items w).2 = trace w.
Proof.
  revert w. induction items as [|t ts IH]; intros w; cbn [clone_each]; [done|].
  destruct (store_items w !! item_id t); [|done].
  match goal with |- context [clone_each copy_data ts ?w1] =>
    specialize (IH w1); destruct (clone_each copy_data ts w1) as [[?|?] ?] end;
    cbn in *; by rewrite IH.
Qed.

Lemma clone_items_run items copy_data w :
  ∃ r w1,
    gis_content_clone_items items copy_data w = (r, w1) ∧
    trace w1 = trace w ++ [content_clone_items items copy_data r].
Proof.
  destruct w as [tf ts si sl ni ps sx fl tr].
  destruct (gis_content_clone_items _ _ _) as [r w1] eqn:Heq. exists r, w1. split; [done|].
  revert Heq. unfold gis_content_clone_items, sdk_call. cbn [faults].
  destruct (next_fault fl); [by intros [= <- <-]|].
  match goal with |- context [clone_each ?c ?i ?w] =>
    pose proof (clone_each_trace c i w) as Htr; destruct (clone_each c i w) as [??] end.
  intros [= <- <-]. cbn in *. by rewrite Htr.
Qed.

Section etl_utils_props.
Context {GeoJSON : Type} (json_dumps : GeoJSON → option string).

(** Every run of [add_geojson]: either serialisation fails and no SDK call
    is made, or exactly one [content_add] call is made, whose outcome is
    the outcome of the run. *)
Lemma add_geojson_run g opts w :
  let fp := tmp_name ".geojson" w in
  let '(r, w') := add_geojson json_dumps g opts w in
  tmpfiles w' = delete fp (tmpfiles w) ∧
  store_layers w' = store_layers w ∧
  publish_sublayers w' = publish_sublayers w ∧
  search_index w' = search_index w ∧
  match json_dumps g with
  | None =>
      r = Raise (TypeError "Object is not JSON serializable") ∧
      trace w' = trace w ∧ store_items w' = store_items w ∧
      next_id w' = next_id w ∧ faults w' = faults w
  | Some _ =>
      trace w' = trace w ++ [content_add (resolved_properties opts) fp r] ∧
      faults w' = tail (faults w) ∧
      match r with
      | Ok item =>
          item = ItemH (next_id w) ∧ next_id w' = S (next_id w) ∧
          store_items w' =
            <[next_id w := mkItemRec (resolved_properties opts) (Some fp) []]> (store_items w)
      | Raise e =>
          next_fault (faults w) = Some e ∧
          next_id w' = next_id w ∧ store_items w' = store_items w
      end
  end.
Proof.
  destruct w as [tf ts si sl ni ps sx fl tr]. unfold add_geojson.
  fold (resolved_properties opts). exec.
  destruct (json_dumps g) eqn:Hd; run; cbn;
    repeat split; try done; apply map_eq; intros k;
    destruct (decide (k = tmp_name ".geojson" (mkWorld tf ts si sl ni ps sx [] tr)));
    simplify_map_eq; try done.
Qed.

(** Start from the outcome of the staging upload. *)
Ltac upload g opts w H :=
  pose proof (add_geojson_run g opts w) as H; cbv zeta in H;
  destruct (add_geojson json_dumps g opts w) as [[item|e] [tf' ts' si' sl' ni' ps' sx' fl' tr']];
  cbn [tmpfiles tmp_seq store_items store_layers next_id publish_sublayers
       search_index faults trace] in H;
  destruct H as (? & ? & ? & ? & H).

(** Every run of [append_to_layer] after a successful upload: the append
    call, then the delete call, and nothing else. *)
Lemma append_to_layer_run layer g uid w :
  let '(r, w') := append_to_layer json_dumps layer g uid w in
  let '(ra, wa) := add_geojson json_dumps g {["title" := VStr "Dataminr update"]} w in
  match ra with
  | Raise e => r = Raise e ∧ w' = wa
  | Ok item =>
      ∃ r_app r_del,
        trace w' = trace wa ++
          [layer_append layer (item_id item) "geojson" (bool_decide (uid ≠ None)) uid r_app;
           item_delete item r_del] ∧
        r = match r_del with Ok _ => r_app | Raise e => Raise e end ∧
        tmpfiles w' = tmpfiles wa ∧
        next_id w' = next_id wa ∧
        publish_sublayers w' = publish_sublayers wa ∧
        search_index w' = search_index wa ∧
        store_items w' =
          (if is_ok r_del then delete (item_id item) (store_items wa) else store_items wa)
  end.
Proof.
  unfold append_to_layer. unfold bind at 1.
  upload g ({["title" := VStr "Dataminr update"]} : gmap string PyVal) w H.
  - destruct (json_dumps g); [|naive_solver].
    destruct H as (Htr & Hfl & Hit & Hni & Hsi). destruct w; simplify_eq/=.
    run; eexists _, _; cbn; (split; [by rewrite <- !app_assoc|]); by repeat split.
  - done.
Qed.

(** The three ways a run of [append_to_layer] can go. *)
Lemma append_to_layer_spec layer g uid w :
  let fp := tmp_name ".geojson" w in
  let props := resolved_properties {["title" := VStr "Dataminr update"]} in
  let staged := ItemH (next_id w) in
  let '(r, w') := append_to_layer json_dumps layer g uid w in
  tmpfiles w' = delete fp (tmpfiles w) ∧
  ((json_dumps g = None ∧ trace w' = trace w ∧ store_items w' = store_items w ∧
    r = Raise (TypeError "Object is not JSON serializable"))
   ∨ (∃ e, trace w' = trace w ++ [content_add props fp (Raise e)] ∧
           store_items w' = store_items w ∧ r = Raise e)
   ∨ (∃ r_app r_del,
        trace w' = trace w ++
          [content_add props fp (Ok staged);
           layer_append layer (next_id w) "geojson" (bool_decide (uid ≠ None)) uid r_app;
           item_delete staged r_del] ∧
        store_items w' =
          (if is_ok r_del then delete (next_id w) (store_items w)
           else <[next_id w := mkItemRec props (Some fp) []]> (store_items w)) ∧
        r = match r_del with Ok _ => r_app | Raise e => Raise e end)).
Proof.
  cbv zeta.
  pose proof (append_to_layer_run layer g uid w) as Hrun.
  pose proof (add_geojson_run g {["title" := VStr "Dataminr update"]} w) as Hup.
  cbv zeta in Hup.
  destruct (append_to_layer json_dumps layer g uid w) as [r w'].
  destruct (add_geojson json_dumps g _ w) as [ra wa].
  destruct Hup as (Htf & _ & _ & _ & Hup).
  destruct (json_dumps g) as [s|], ra as [item|e].
  - destruct Hup as (Htr & _ & -> & _ & Hsi).
    destruct Hrun as (r_app & r_del & Htr' & -> & Htf' & _ & _ & _ & Hsi').
    split; [congruence|]. right; right. exists r_app, r_del.
    rewrite Htr', Htr, Hsi', Hsi, <- app_assoc. cbn [item_id].
    rewrite delete_insert_eq. done.
  - destruct Hrun as [-> ->]. destruct Hup as (Htr & _ & _ & _ & Hsi).
    split; [done|]. right; left. by exists e.
  - by destruct Hup as (? & _).
  - destruct Hrun as [-> ->]. destruct Hup as (Hr & Htr & Hsi & _).
    split; [done|]. left. by simplify_eq.
Qed.

(** The ways a run of [create_scratch_layer] can go. *)
Lemma create_scratch_layer_spec g uid opts w :
  let fp := tmp_name ".geojson" w in
  let props := resolved_properties opts in
  let staged := ItemH (next_id w) in
  let '(r, w') := create_scratch_layer json_dumps g uid opts w in
  tmpfiles w' = delete fp (tmpfiles w) ∧
  ((json_dumps g = None ∧ trace w' = trace w ∧ store_items w' = store_items w ∧
    r = Raise (TypeError "Object is not JSON serializable"))
   ∨ (∃ e, trace w' = trace w ++ [content_add props fp (Raise e)] ∧
           store_items w' = store_items w ∧ r = Raise e)
   ∨ (∃ r_pub r_del rest,
        trace w' = trace w ++
          [content_add props fp (Ok staged); item_publish staged r_pub;
           item_delete staged r_del] ++ rest ∧
        (is_ok r_del → store_items w' !! next_id w = None) ∧
        match r_del, r_pub with
        | Raise e, _ => rest = [] ∧ r = Raise e
        | Ok _, Raise e => rest = [] ∧ r = Raise e
        | Ok _, Ok lyr_item =>
            if truthy uid then
              ∃ r_lay,
                match r_lay with
                | Raise e => rest = [item_layers lyr_item (Raise e)] ∧ r = Raise e
                | Ok [] =>
                    rest = [item_layers lyr_item (Ok [])] ∧
                    r = Raise (IndexError "list index out of range")
                | Ok (lyr :: lyrs) =>
                    ∃ r_def,
                      rest = [item_layers lyr_item (Ok (lyr :: lyrs));
                              manager_add_to_definition lyr
                                (mkAddDict [external_uid_index uid]) r_def] ∧
                      r = match r_def with Ok _ => Ok lyr_item | Raise e => Raise e end ∧
                      (is_ok r_def →
                       lr_indexes <$> store_layers w' !! layer_id lyr
                       = Some [external_uid_index uid])
                end
            else rest = [] ∧ r = Ok lyr_item
        end)).
Proof.
  cbv zeta. unfold create_scratch_layer. unfold bind at 1.
  pose proof (add_geojson_run g opts w) as Hup. cbv zeta in Hup.
  destruct (add_geojson json_dumps g opts w) as [[item|e] w1].
  2: { destruct Hup as (Htf & _ & _ & _ & Hup). destruct (json_dumps g).
       - destruct Hup as (Htr & _ & _ & _ & Hsi). split; [done|]. right; left. by exists e.
       - destruct Hup as (Hr & Htr & Hsi & _). split; [done|]. left. by simplify_eq. }
  destruct Hup as (Htf & Hsl & _ & _ & Hup).
  destruct (json_dumps g) as [s|]; [|by destruct Hup].
  destruct Hup as (Htr & _ & -> & Hni & Hsi).
  unfold bind, try_finally, ret.
  destruct (publish_run (ItemH (next_id w)) w1) as (r_pub & w2 & -> & Htr2 & Htf2 & Hpub).
  destruct (delete_item_run (ItemH (next_id w)) w2) as (r_del & w3 & -> & Htr3 & Htf3 & Hsl3 & Hsi3).
  cbn [item_id] in Hsi3.
  assert (Hgone : is_ok r_del → store_items w3 !! next_id w = None).
  { intros Hok. rewrite Hsi3. destruct r_del; [|done]. apply lookup_delete_eq. }
  assert (Htr3' : trace w3 = trace w ++
            [content_add (resolved_properties opts) (tmp_name ".geojson" w)
               (Ok (ItemH (next_id w)));
             item_publish (ItemH (next_id w)) r_pub;
             item_delete (ItemH (next_id w)) r_del]).
  { by rewrite Htr3, Htr2, Htr, <- !app_assoc. }
  assert (Htf3' : tmpfiles w3 = delete (tmp_name ".geojson" w) (tmpfiles w)) by congruence.
  destruct r_del as [b|e].
  2: { split; [done|]. right; right. exists r_pub, (Raise e), [].
       rewrite app_nil_r. by repeat split. }
  destruct r_pub as [pub|e].
  2: { split; [done|]. right; right. exists (Raise e), (Ok b), [].
       rewrite app_nil_r. by repeat split. }
  destruct Hpub as (-> & (rec & Hrec & Hlayers) & Hother & Hfresh).
  destruct (truthy uid) eqn:Htruthy.
  2: { split; [done|]. right; right. eexists (Ok _), (Ok b), [].
       rewrite app_nil_r. by repeat split. }
  destruct (layers_run (ItemH (next_id w1)) w3) as (r_lay & w4 & -> & Htr4 & Htf4 & Hsi4 & Hsl4 & Hlay).
  destruct r_lay as [[|lyr lyrs]|e]; cbn [getitem0 raise ret].
  - split; [congruence|]. right; right. eexists (Ok _), (Ok b), _.
    split; [by rewrite Htr4, Htr3', <- !app_assoc|]. split; [by rewrite Hsi4|].
    by exists (Ok []).
  - destruct (add_to_definition_run lyr (mkAddDict [mkIndex "External UID" uid true
                "External UID for upsert operations"]) w4)
      as (r_def & w5 & -> & Htr5 & Htf5 & Hsi5 & Hdef).
    assert (Hidx : is_ok r_def →
              lr_indexes <$> store_layers w5 !! layer_id lyr
              = Some [external_uid_index uid]).
    { intros Hok.
      destruct (Hdef Hok) as (lr & Hlr & ->). rewrite lookup_insert_eq. cbn.
      destruct (Hlay _ eq_refl) as (rec' & Hrec' & Hlyrs).
      rewrite Hsi3, Hni in Hrec'. cbn [is_ok item_id] in Hrec'.
      rewrite lookup_delete_ne in Hrec' by lia. rewrite Hni in Hrec. simplify_eq.
      rewrite Hlayers in Hlyrs. rewrite Hsl4, Hsl3, Hfresh in Hlr.
      destruct (publish_sublayers w1) as [|n]; [done|]. cbn in Hlyrs. simplify_eq.
      cbn [layer_id] in Hlr. rewrite fresh_layers_first in Hlr. by simplify_eq. }
    destruct r_def as [b'|e'].
    all: split; [congruence|]; right; right; eexists (Ok _), (Ok b), _.
    all: (split; [by rewrite Htr5, Htr4, Htr3', <- !app_assoc|]).
    all: (split; [by rewrite Hsi5, Hsi4|]).
    all: by eexists (Ok (lyr :: lyrs)), _.
  - split; [congruence|]. right; right. eexists (Ok _), (Ok b), _.
    split; [by rewrite Htr4, Htr3', <- !app_assoc|]. split; [by rewrite Hsi4|].
    by exists (Raise e).
Qed.

(** The ways a run of [create_layer] can go. *)
Lemma create_layer_spec g t w :
  let '(r, w') := create_layer json_dumps g t w in
  ∃ r_clone,
    match r_clone with
    | Raise e =>
        trace w' = trace w ++ [content_clone_items [t] false (Raise e)] ∧ r = Raise e
    | Ok [] =>
        trace w' = trace w ++ [content_clone_items [t] false (Ok [])] ∧
        r = Raise (IndexError "list index out of range")
    | Ok (item :: items) =>
        ∃ r_lay,
          match r_lay with
          | Raise e =>
              trace w' = trace w ++
                [content_clone_items [t] false r_clone; item_layers item (Raise e)] ∧
              r = Raise e
          | Ok [] =>
              trace w' = trace w ++
                [content_clone_items [t] false r_clone; item_layers item (Ok [])] ∧
              r = Raise (IndexError "list index out of range")
          | Ok (lyr :: lyrs) =>
              ∃ rest,
                trace w' = trace w ++
                  [content_clone_items [t] false r_clone; item_layers item r_lay] ++ rest ∧
                ((json_dumps g = None ∧ rest = [] ∧
                  r = Raise (TypeError "Object is not JSON serializable"))
                 ∨ (∃ props fp e,
                      rest = [content_add props fp (Raise e)] ∧ r = Raise e)
                 ∨ (∃ props fp staged r_app r_del,
                      rest = [content_add props fp (Ok staged);
                              layer_append lyr (item_id staged) "geojson" false None r_app;
                              item_delete staged r_del] ∧
                      r = match r_del, r_app with
                          | Raise e, _ => Raise e
                          | Ok _, Raise e => Raise e
                          | Ok _, Ok _ => Ok item
                          end))
          end
    end.
Proof.
  unfold create_layer, getitem0, bind, ret, raise.
  destruct (clone_items_run [t] false w) as (r_clone & w1 & -> & Htr1).
  destruct r_clone as [[|item items]|e]; [by exists (Ok [])| |by exists (Raise e)].
  cbv beta iota zeta.
  destruct (layers_run item w1) as (r_lay & w2 & -> & Htr2 & _).
  assert (Htr2' : trace w2 = trace w ++
            [content_clone_items [t] false (Ok (item :: items)); item_layers item r_lay]).
  { by rewrite Htr2, Htr1, <- app_assoc. }
  destruct r_lay as [[|lyr lyrs]|e];
    [by exists (Ok (item :: items)), (Ok [])| |by exists (Ok (item :: items)), (Raise e)].
  cbv beta iota zeta.
  pose proof (append_to_layer_spec lyr g None w2) as Hs. cbv zeta in Hs.
  change (bool_decide (@None string ≠ None)) with false in Hs.
  destruct (append_to_layer json_dumps lyr g None w2) as [ra w3].
  destruct Hs as (_ & [(Hd & Htr & _ & ->)|[(e & Htr & _ & ->)|(r_app & r_del & Htr & _ & ->)]]).
  - exists (Ok (item :: items)), (Ok (lyr :: lyrs)), [].
    split; [by rewrite Htr, Htr2', app_nil_r|]. by left.
  - exists (Ok (item :: items)), (Ok (lyr :: lyrs)). eexists.
    split; [by rewrite Htr, Htr2', <- app_assoc|]. right; left. by eexists _, _, _.
  - destruct r_del as [?|e_del], r_app as [?|e_app]; cbv beta iota zeta.
    all: exists (Ok (item :: items)), (Ok (lyr :: lyrs)); eexists.
    all: (split; [by rewrite Htr, Htr2', <- app_assoc|]); right; right.
    + by eexists _, _, (ItemH _), (Ok _), (Ok _).
    + by eexists _, _, (ItemH _), (Raise _), (Ok _).
    + by eexists _, _, (ItemH _), (Ok _), (Raise _).
    + by eexists _, _, (ItemH _), (Raise _), (Raise _).
Qed.

(** The run of [get_existing_item]: one search, and its first hit. *)
Lemma get_existing_item_spec tags w :
  let t := if truthy tags then default EmptyString tags else DEFAULT_TAG in
  let '(r, w') := get_existing_item tags w in
  ∃ r_search,
    trace w' = trace w ++ [content_search (search_query t) r_search] ∧
    r = match r_search with
        | Ok (x :: _) => Ok (Some x)
        | Ok [] => Ok None
        | Raise e => Raise e
        end.
Proof.
  unfold get_existing_item. destruct w as [tf ts si sl ni ps sx fl tr].
  run; by eexists.
Qed.

Ltac inv_elem :=
  repeat match goal with
    | H : _ ∈ [] |- _ => by apply elem_of_nil in H
    | H : _ ∈ _ :: _ |- _ => apply elem_of_cons in H as [H|H]
    end; simplify_eq.

(** ** The staging upload and [append_to_layer] *)

(** C6. Whenever [add_geojson] gets as far as the item-creation call (that
    is, the payload serialises), it makes exactly one such call, and the
    properties it passes have [type] equal to ["GeoJson"] whatever the
    caller's options say, the caller's [title] and [tags] or else the
    defaults ["GeoJSON Utils POC"] and ["geojson-utils-poc"], and every
    other caller option unchanged. *)
Theorem add_geojson_item_properties g opts w s :
  json_dumps g = Some s →
  ∃ props r,
    events (add_geojson json_dumps g opts) w
      = [content_add props (tmp_name ".geojson" w) r] ∧
    (add_geojson json_dumps g opts w).1 = r ∧
    props !! "type" = Some (VStr "GeoJson") ∧
    props !! "title" = Some (default (VStr "GeoJSON Utils POC") (opts !! "title")) ∧
    props !! "tags" = Some (default (VStr "geojson-utils-poc") (opts !! "tags")) ∧
    ∀ k, k ≠ "type" → k ≠ "title" → k ≠ "tags" → props !! k = opts !! k.
Proof.
  intros Hs. pose proof (add_geojson_run g opts w) as Hrun. cbv zeta in Hrun.
  destruct (add_geojson json_dumps g opts w) as [r w'] eqn:Hadd.
  rewrite Hs in Hrun. destruct Hrun as (_ & _ & _ & _ & Htr & _).
  exists (resolved_properties opts), r. split.
  { apply events_app. by rewrite Hadd. }
  split; [done|].
  split; [apply resolved_properties_type|].
  split; [apply resolved_properties_title|].
  split; [apply resolved_properties_tags|].
  apply resolved_properties_other.
Qed.

(** A payload that does not serialise reaches no SDK call at all. *)
Lemma add_geojson_not_serialisable g opts w :
  json_dumps g = None →
  events (add_geojson json_dumps g opts) w = [] ∧
  (add_geojson json_dumps g opts w).1 = Raise (TypeError "Object is not JSON serializable").
Proof.
  intros Hs. pose proof (add_geojson_run g opts w) as Hrun. cbv zeta in Hrun.
  destruct (add_geojson json_dumps g opts w) as [r w'] eqn:Hadd.
  rewrite Hs in Hrun. destruct Hrun as (_ & _ & _ & _ & Hr & Htr & _).
  split; [|done]. apply events_app. rewrite Hadd. cbn. by rewrite app_nil_r.
Qed.

Lemma dataminr_title :
  resolved_properties {["title" := VStr "Dataminr update"]} !! "title"
  = Some (VStr "Dataminr update").
Proof. rewrite resolved_properties_title. by rewrite lookup_singleton_eq. Qed.

(** C2. The SDK calls of [append_to_layer]: the upload, with title
    ["Dataminr update"]; and, once the upload has returned the staged item,
    the append on the given layer with that item's id, format ["geojson"],
    [upsert] true exactly when [uid_field] is not [None], and [uid_field]
    as the matching field; then the delete of the staged item. *)
Theorem append_to_layer_calls layer g uid w :
  let evs := events (append_to_layer json_dumps layer g uid) w in
  (json_dumps g = None ∧ evs = [])
  ∨ (∃ props fp e,
       evs = [content_add props fp (Raise e)] ∧
       props !! "title" = Some (VStr "Dataminr update"))
  ∨ (∃ props fp staged upsert r_app r_del,
       evs = [content_add props fp (Ok staged);
              layer_append layer (item_id staged) "geojson" upsert uid r_app;
              item_delete staged r_del] ∧
       props !! "title" = Some (VStr "Dataminr update") ∧
       (upsert = true ↔ uid ≠ None)).
Proof.
  cbv zeta. pose proof (append_to_layer_spec layer g uid w) as Hs. cbv zeta in Hs.
  destruct (append_to_layer json_dumps layer g uid w) as [r w'] eqn:Hrun.
  destruct Hs as (_ & [(Hd & Htr & _)|[(e & Htr & _)|(r_app & r_del & Htr & _)]]).
  - left. split; [done|]. apply events_app. rewrite Hrun. cbn. by rewrite app_nil_r.
  - right; left. eexists _, _, e. split; [|apply dataminr_title].
    apply events_app. by rewrite Hrun.
  - right; right. eexists _, _, (ItemH _), _, r_app, r_del.
    split; [apply events_app; by rewrite Hrun|].
    split; [apply dataminr_title|]. apply bool_decide_eq_true.
Qed.

(** C4. If the append call of [append_to_layer] raises, the delete call on
    the staged item is still made; when that delete succeeds the item is
    gone from the store and the append's exception is the one that
    propagates.  If the append call succeeds and the delete raises, the
    delete's exception propagates. *)
Theorem append_to_layer_failure_propagation
    layer g uid w lyr i fmt upsert fld r_app :
  layer_append lyr i fmt upsert fld r_app
    ∈ events (append_to_layer json_dumps layer g uid) w →
  ∃ props fp r_del,
    events (append_to_layer json_dumps layer g uid) w
      = [content_add props fp (Ok (ItemH i));
         layer_append lyr i fmt upsert fld r_app;
         item_delete (ItemH i) r_del] ∧
    (∀ e, r_app = Raise e → is_ok r_del →
       (append_to_layer json_dumps layer g uid w).1 = Raise e ∧
       store_items (append_to_layer json_dumps layer g uid w).2 !! i = None) ∧
    (∀ e', is_ok r_app → r_del = Raise e' →
       (append_to_layer json_dumps layer g uid w).1 = Raise e').
Proof.
  pose proof (append_to_layer_spec layer g uid w) as Hs. cbv zeta in Hs.
  destruct (append_to_layer json_dumps layer g uid w) as [r w'] eqn:Hrun.
  destruct Hs as (_ & [(Hd & Htr & _)|[(e & Htr & _)|(r_app' & r_del & Htr & Hsi & Hr)]]).
  - rewrite (events_app _ w []); [|by rewrite Hrun, app_nil_r]. intros; inv_elem.
  - erewrite events_app; [|by rewrite Hrun]. intros; inv_elem.
  - erewrite events_app; [|by rewrite Hrun]. intros; inv_elem.
    eexists _, _, r_del. split; [done|]. cbn [fst snd]. split.
    + intros e -> Hok. destruct r_del; [|done]. split; [done|].
      rewrite Hsi. cbn. apply lookup_delete_eq.
    + intros e' Hok ->. done.
Qed.

(** ** [create_scratch_layer] and [create_layer] *)

Lemma truthy_nonempty s : s ≠ EmptyString → truthy (Some s) = true.
Proof. by destruct s. Qed.

(** No run of [create_scratch_layer] with a falsy key touches a layer
    definition. *)
Lemma create_scratch_layer_no_index g uid opts w lyr d r :
  truthy uid = false →
  manager_add_to_definition lyr d r
    ∉ events (create_scratch_layer json_dumps g uid opts) w.
Proof.
  intros Hfalsy Hin.
  pose proof (create_scratch_layer_spec g uid opts w) as Hs. cbv zeta in Hs.
  destruct (create_scratch_layer json_dumps g uid opts w) as [r0 w'] eqn:Hrun.
  rewrite Hfalsy in Hs.
  destruct Hs as (_ & [(Hd & Htr & _)|[(e & Htr & _)|(r_pub & r_del & rest & Htr & _ & Hrest)]]).
  - rewrite (events_app _ w []) in Hin; [|by rewrite Hrun, app_nil_r]. inv_elem.
  - erewrite events_app in Hin; [|by rewrite Hrun]. inv_elem.
  - erewrite events_app in Hin; [|by rewrite Hrun].
    destruct r_del, r_pub; destruct Hrest as [-> _]; cbn in Hin; inv_elem.
Qed.

(** C3. When [create_scratch_layer] is given a non-empty key and returns
    the published item, it has made exactly one [add_to_definition] call,
    on the first sub-layer of that item, adding the single index named
    ["External UID"] on the key with [isUnique] true, and that index is
    then the layer's definition.  Given no key it makes no
    [add_to_definition] call on any path. *)
Theorem create_scratch_layer_unique_index g opts w :
  (∀ s lyr_item w',
     s ≠ EmptyString →
     create_scratch_layer json_dumps g (Some s) opts w = (Ok lyr_item, w') →
     ∃ props fp staged b lyr lyrs b',
       events (create_scratch_layer json_dumps g (Some s) opts) w
         = [content_add props fp (Ok staged);
            item_publish staged (Ok lyr_item);
            item_delete staged (Ok b);
            item_layers lyr_item (Ok (lyr :: lyrs));
            manager_add_to_definition lyr
              (mkAddDict [mkIndex "External UID" (Some s) true
                            "External UID for upsert operations"])
              (Ok b')] ∧
       lr_indexes <$> store_layers w' !! layer_id lyr
         = Some [mkIndex "External UID" (Some s) true
                   "External UID for upsert operations"]) ∧
  (∀ lyr d r,
     manager_add_to_definition lyr d r
       ∉ events (create_scratch_layer json_dumps g None opts) w).
Proof.
  split; [|intros; by apply create_scratch_layer_no_index].
  intros s lyr_item w' Hs Hrun.
  pose proof (create_scratch_layer_spec g (Some s) opts w) as Hspec. cbv zeta in Hspec.
  rewrite Hrun, (truthy_nonempty s Hs) in Hspec.
  destruct Hspec as (_ & [(_ & _ & _ & ?)|[(e & _ & _ & ?)|(r_pub & r_del & rest & Htr & _ & Hrest)]]);
    [done|done|].
  destruct r_del as [b|]; [|by destruct Hrest].
  destruct r_pub as [pub|]; [|by destruct Hrest].
  destruct Hrest as [[[|lyr lyrs]|e] Hrest]; [by destruct Hrest| |by destruct Hrest].
  destruct Hrest as (r_def & -> & Hr & Hidx).
  destruct r_def as [b'|]; [|done]. simplify_eq.
  eexists _, _, _, b, lyr, lyrs, b'. split; [|by apply Hidx].
  apply events_app. rewrite Hrun. cbn [snd]. rewrite Htr. reflexivity.
Qed.




(** ** Release of the staging resources *)







(** ** The search for an existing layer item *)

(** C5. [get_existing_item] makes one search, with the query
    [tags:"<tag>" AND type:"Feature Service"], where the tag is the one
    supplied (a non-empty string) or ["geojson-utils-poc"] when none is
    supplied; it returns the first hit of a non-empty result and [None] when
    the search finds nothing. *)
Theorem get_existing_item_search tags w :
  let tag := match tags with
             | Some (String c s) => String c s
             | _ => "geojson-utils-poc"%string
             end in
  ∃ r_search,
    events (get_existing_item tags) w
      = [content_search
           ("tags:" +:+ dq +:+ tag +:+ dq +:+ " AND type:" +:+ dq +:+ "Feature Service" +:+ dq)
           r_search] ∧
    (get_existing_item tags w).1
      = match r_search with
        | Ok (x :: _) => Ok (Some x)
        | Ok [] => Ok None
        | Raise e => Raise e
        end.
Proof.
  cbv zeta. pose proof (get_existing_item_spec tags w) as Hs. cbv zeta in Hs.
  destruct (get_existing_item tags w) as [r w'] eqn:Hrun.
  destruct Hs as (r_search & Htr & Hr). exists r_search.
  assert (Ht : (if truthy tags then default EmptyString tags else DEFAULT_TAG)
               = match tags with
                 | Some (String c s) => String c s
                 | _ => "geojson-utils-poc"%string
                 end) by (by destruct tags as [[|c s]|]).
  rewrite Ht in Htr. split; [|done]. apply events_app. by rewrite Hrun.
Qed.

Lemma string_length_app (s1 s2 : string) :
  String.length (s1 +:+ s2) = String.length s1 + String.length s2.
Proof. induction s1 as [|c s1 IH]; simpl; [done|]. by rewrite IH. Qed.

Lemma search_query_empty_tag t : search_query t = search_query EmptyString → t = EmptyString.
Proof.
  unfold search_query. intros Heq. apply (f_equal String.length) in Heq.
  rewrite !string_length_app in Heq. destruct t; [done|]. cbn in Heq. lia.
Qed.

(** C10. For every falsy [tags] argument, the empty string as well as
    [None], the one search [get_existing_item] makes is for the default tag
    ["geojson-utils-poc"]; and whatever the argument, no search is ever made
    for the empty tag. *)
Theorem get_existing_item_falsy_tags tags w :
  (truthy tags = false →
   ∃ r_search,
     events (get_existing_item tags) w
       = [content_search (search_query "geojson-utils-poc") r_search]) ∧
  (∀ r, content_search (search_query EmptyString) r ∉ events (get_existing_item tags) w).
Proof.
  pose proof (get_existing_item_spec tags w) as Hs. cbv zeta in Hs.
  destruct (get_existing_item tags w) as [r w'] eqn:Hrun.
  destruct Hs as (r_search & Htr & Hr).
  assert (Hev : events (get_existing_item tags) w
                = [content_search
                     (search_query (if truthy tags then default EmptyString tags
                                    else DEFAULT_TAG)) r_search]).
  { apply events_app. by rewrite Hrun. }
  rewrite Hev. split.
  - intros ->. by exists r_search.
  - intros r0 Hin. apply list_elem_of_singleton in Hin.
    assert (Hq : search_query (if truthy tags then default EmptyString tags else DEFAULT_TAG)
                 = search_query EmptyString) by congruence.
    apply search_query_empty_tag in Hq. by destruct tags as [[|c s]|].
Qed.

End etl_utils_props.

(** * Further properties of the module *)

Section etl_utils_more.

Context {GeoJSON : Type} (json_dumps : GeoJSON → option string).

Ltac elems :=
  repeat match goal with
    | H : _ ∈ [] |- _ => by apply elem_of_nil in H
    | H : _ ∈ _ :: _ |- _ => apply elem_of_cons in H as [H|H]
    end; simplify_eq.

(** The upload comes back with the fault scheduled for its one SDK call, or
    else with the handle of the new item. *)
Lemma add_geojson_outcome g opts w s :
  json_dumps g = Some s →
  (add_geojson json_dumps g opts w).1
  = match next_fault (faults w) with
    | Some e => Raise e
    | None => Ok (ItemH (next_id w))
    end.
Proof.
  intros Hd. destruct w as [tf ts si sl ni ps sx fl tr]. unfold add_geojson.
  exec. rewrite Hd. run; done.
Qed.


(** X2. When the item-creation call raises, [add_geojson] propagates that
    exception; nothing has been added to the content store and the
    temporary file is gone all the same. *)
Theorem add_geojson_upload_failure g opts w s e :
  json_dumps g = Some s →
  next_fault (faults w) = Some e →
  (add_geojson json_dumps g opts w).1 = Raise e ∧
  events (add_geojson json_dumps g opts) w
    = [content_add (resolved_properties opts) (tmp_name ".geojson" w) (Raise e)] ∧
  store_items (add_geojson json_dumps g opts w).2 = store_items w ∧
  tmpfiles (add_geojson json_dumps g opts w).2 !! tmp_name ".geojson" w = None.
Proof.
  intros Hs Hf. pose proof (add_geojson_outcome g opts w s Hs) as Hout.
  pose proof (add_geojson_run json_dumps g opts w) as Hrun. cbv zeta in Hrun.
  destruct (add_geojson json_dumps g opts w) as [r w'] eqn:Hadd.
  rewrite Hs in Hrun. rewrite Hf in Hout. cbn [fst] in Hout. subst r.
  destruct Hrun as (Htf & _ & _ & _ & Htr & _ & _ & _ & Hsi).
  cbn [fst snd]. repeat split; try done.
  - apply events_app. by rewrite Hadd.
  - rewrite Htf. apply lookup_delete_eq.
Qed.

(** X3. When the item-creation call goes through, [add_geojson] returns the
    handle of a new item that holds exactly the resolved properties and the
    path of the temporary file as its data; by the time it returns, that
    file has been removed. *)
Theorem add_geojson_success g opts w s :
  json_dumps g = Some s →
  next_fault (faults w) = None →
  (add_geojson json_dumps g opts w).1 = Ok (ItemH (next_id w)) ∧
  store_items (add_geojson json_dumps g opts w).2 !! next_id w
    = Some (mkItemRec (resolved_properties opts) (Some (tmp_name ".geojson" w)) []) ∧
  (∀ i, i ≠ next_id w →
     store_items (add_geojson json_dumps g opts w).2 !! i = store_items w !! i) ∧
  tmpfiles (add_geojson json_dumps g opts w).2 !! tmp_name ".geojson" w = None.
Proof.
  intros Hs Hf. pose proof (add_geojson_outcome g opts w s Hs) as Hout.
  pose proof (add_geojson_run json_dumps g opts w) as Hrun. cbv zeta in Hrun.
  destruct (add_geojson json_dumps g opts w) as [r w'] eqn:Hadd.
  rewrite Hs in Hrun. rewrite Hf in Hout. cbn [fst] in Hout. subst r.
  destruct Hrun as (Htf & _ & _ & _ & Htr & _ & _ & _ & Hsi).
  cbn [fst snd]. rewrite Hsi, Htf. repeat split.
  - apply lookup_insert_eq.
  - intros i Hi. by apply lookup_insert_ne.
  - apply lookup_delete_eq.
Qed.

(** ** [append_to_layer] *)

Lemma append_to_layer_events layer g uid w :
  let m := append_to_layer json_dumps layer g uid in
  let fp := tmp_name ".geojson" w in
  let props := resolved_properties {["title" := VStr "Dataminr update"]} in
  let staged := ItemH (next_id w) in
  (json_dumps g = None ∧ events m w = [] ∧ store_items (m w).2 = store_items w ∧
   (m w).1 = Raise (TypeError "Object is not JSON serializable"))
  ∨ (∃ e, events m w = [content_add props fp (Raise e)] ∧
          store_items (m w).2 = store_items w ∧ (m w).1 = Raise e)
  ∨ (∃ r_app r_del,
       events m w =
         [content_add props fp (Ok staged);
          layer_append layer (next_id w) "geojson" (bool_decide (uid ≠ None)) uid r_app;
          item_delete staged r_del] ∧
       store_items (m w).2 =
         (if is_ok r_del then delete (next_id w) (store_items w)
          else <[next_id w := mkItemRec props (Some fp) []]> (store_items w)) ∧
       (m w).1 = match r_del with Ok _ => r_app | Raise e => Raise e end).
Proof.
  cbv zeta. pose proof (append_to_layer_spec json_dumps layer g uid w) as Hs. cbv zeta in Hs.
  destruct (append_to_layer json_dumps layer g uid w) as [r w'] eqn:Hrun.
  assert (Hev : ∀ evs, trace w' = trace w ++ evs →
                       events (append_to_layer json_dumps layer g uid) w = evs).
  { intros evs Htr. apply events_app. by rewrite Hrun. }
  destruct Hs as (_ & [(Hd & Htr & Hsi & Hr)|[(e & Htr & Hsi & Hr)|(r_app & r_del & Htr & Hsi & Hr)]]).
  - left. rewrite <- (app_nil_r (trace w)) in Htr. by rewrite (Hev _ Htr).
  - right; left. exists e. by rewrite (Hev _ Htr).
  - right; right. exists r_app, r_del. by rewrite (Hev _ Htr).
Qed.

(** X4. An exception from the delete call is the one that
    [append_to_layer] propagates, whatever the append call did before it
    (an exception of the append is lost), and the staging item is then still
    in the content store. *)
Theorem append_to_layer_delete_failure_wins layer g uid w it e :
  item_delete it (Raise e) ∈ events (append_to_layer json_dumps layer g uid) w →
  (append_to_layer json_dumps layer g uid w).1 = Raise e ∧
  is_Some (store_items (append_to_layer json_dumps layer g uid w).2 !! item_id it).
Proof.
  intros Hin.
  destruct (append_to_layer_events layer g uid w)
    as [(_ & Hev & _)|[(e' & Hev & _)|(r_app & r_del & Hev & Hsi & Hr)]];
    rewrite Hev in Hin; elems.
  split; [done|]. rewrite Hsi. cbn [is_ok item_id]. rewrite lookup_insert_eq. by eexists.
Qed.

(** X5. When the append call and the delete call both go through,
    [append_to_layer] returns the very value the append call returned. *)
Theorem append_to_layer_returns_append_result layer g uid w lyr i fmt upsert fld b it b' :
  layer_append lyr i fmt upsert fld (Ok b)
    ∈ events (append_to_layer json_dumps layer g uid) w →
  item_delete it (Ok b') ∈ events (append_to_layer json_dumps layer g uid) w →
  (append_to_layer json_dumps layer g uid w).1 = Ok b.
Proof.
  intros Happ Hdel.
  destruct (append_to_layer_events layer g uid w)
    as [(_ & Hev & _)|[(e' & Hev & _)|(r_app & r_del & Hev & Hsi & Hr)]];
    rewrite Hev in Happ, Hdel; elems. done.
Qed.

(** X6. When the upload of the staging item fails, [append_to_layer] makes
    no further SDK call, no append and no delete, propagates the exception
    and leaves the content store as it was. *)
Theorem append_to_layer_upload_failure layer g uid w props fp e :
  content_add props fp (Raise e) ∈ events (append_to_layer json_dumps layer g uid) w →
  events (append_to_layer json_dumps layer g uid) w = [content_add props fp (Raise e)] ∧
  (append_to_layer json_dumps layer g uid w).1 = Raise e ∧
  store_items (append_to_layer json_dumps layer g uid w).2 = store_items w.
Proof.
  intros Hin.
  destruct (append_to_layer_events layer g uid w)
    as [(_ & Hev & _)|[(e' & Hev & Hsi & Hr)|(r_app & r_del & Hev & Hsi & Hr)]];
    rewrite Hev in Hin |- *; elems. done.
Qed.

Lemma dataminr_properties :
  resolved_properties {["title" := VStr "Dataminr update"]}
  = {["type" := VStr "GeoJson"; "title" := VStr "Dataminr update";
      "tags" := VStr "geojson-utils-poc"]}.
Proof.
  apply map_eq. intros k.
  destruct (decide (k = "type")) as [->|]; [by rewrite resolved_properties_type|].
  destruct (decide (k = "title")) as [->|]; [by rewrite resolved_properties_title|].
  destruct (decide (k = "tags")) as [->|]; [by rewrite resolved_properties_tags|].
  rewrite resolved_properties_other by done. by simplify_map_eq.
Qed.

(** X7. The staging item of [append_to_layer] is created from the temporary
    file of the call with exactly three properties: type ["GeoJson"], title
    ["Dataminr update"] and the default tag ["geojson-utils-poc"]. *)
Theorem append_to_layer_staging_properties layer g uid w props fp r :
  content_add props fp r ∈ events (append_to_layer json_dumps layer g uid) w →
  fp = tmp_name ".geojson" w ∧
  props = {["type" := VStr "GeoJson"; "title" := VStr "Dataminr update";
            "tags" := VStr "geojson-utils-poc"]}.
Proof.
  intros Hin.
  destruct (append_to_layer_events layer g uid w)
    as [(_ & Hev & _)|[(e' & Hev & Hsi & Hr)|(r_app & r_del & Hev & Hsi & Hr)]];
    rewrite Hev in Hin; elems; split; try done; apply dataminr_properties.
Qed.

(** ** [create_scratch_layer] *)

Lemma create_scratch_layer_events g uid opts w :
  let m := create_scratch_layer json_dumps g uid opts in
  let fp := tmp_name ".geojson" w in
  let props := resolved_properties opts in
  let staged := ItemH (next_id w) in
  (events m w = [] ∧ (m w).1 = Raise (TypeError "Object is not JSON serializable"))
  ∨ (∃ e, events m w = [content_add props fp (Raise e)] ∧ (m w).1 = Raise e)
  ∨ (∃ r_pub r_del rest,
       events m w =
         [content_add props fp (Ok staged); item_publish staged r_pub;
          item_delete staged r_del] ++ rest ∧
       (is_ok r_del → store_items (m w).2 !! next_id w = None) ∧
       match r_del, r_pub with
       | Raise e, _ => rest = [] ∧ (m w).1 = Raise e
       | Ok _, Raise e => rest = [] ∧ (m w).1 = Raise e
       | Ok _, Ok lyr_item =>
           if truthy uid then
             ∃ r_lay,
               match r_lay with
               | Raise e => rest = [item_layers lyr_item (Raise e)] ∧ (m w).1 = Raise e
               | Ok [] =>
                   rest = [item_layers lyr_item (Ok [])] ∧
                   (m w).1 = Raise (IndexError "list index out of range")
               | Ok (lyr :: lyrs) =>
                   ∃ r_def,
                     rest = [item_layers lyr_item (Ok (lyr :: lyrs));
                             manager_add_to_definition lyr
                               (mkAddDict [external_uid_index uid]) r_def] ∧
                     (m w).1 = match r_def with Ok _ => Ok lyr_item | Raise e => Raise e end
               end
           else rest = [] ∧ (m w).1 = Ok lyr_item
       end).
Proof.
  cbv zeta. pose proof (create_scratch_layer_spec json_dumps g uid opts w) as Hs.
  cbv zeta in Hs.
  destruct (create_scratch_layer json_dumps g uid opts w) as [r w'] eqn:Hrun.
  assert (Hev : ∀ evs, trace w' = trace w ++ evs →
                       events (create_scratch_layer json_dumps g uid opts) w = evs).
  { intros evs Htr. apply events_app. by rewrite Hrun. }
  destruct Hs as (_ & [(Hd & Htr & Hsi & Hr)|[(e & Htr & Hsi & Hr)
                      |(r_pub & r_del & rest & Htr & Hsi & Hrest)]]).
  - left. rewrite <- (app_nil_r (trace w)) in Htr. by rewrite (Hev _ Htr).
  - right; left. exists e. by rewrite (Hev _ Htr).
  - right; right. exists r_pub, r_del, rest. rewrite (Hev _ Htr).
    split; [done|]. split; [done|]. cbn [fst].
    destruct r_del, r_pub; try done. destruct (truthy uid); [|done].
    destruct Hrest as [r_lay Hrest]. exists r_lay.
    destruct r_lay as [[|lyr lyrs]|]; try done.
    destruct Hrest as (r_def & ? & ? & _). by exists r_def.
Qed.

(** Split the third way of [create_scratch_layer_events] into its paths. *)
Ltac scratch_paths r_pub r_del Hrest :=
  destruct r_del as [?b|?e], r_pub as [?pub|?e];
  [ destruct (truthy _) eqn:?;
    [ destruct Hrest as [[[|?lyr ?lyrs]|?e] Hrest];
      [ | destruct Hrest as (?r_def & Hrest) | ] | ] | | | ];
  destruct Hrest as (-> & Hrest).

(** X8. When the publish call raises, [create_scratch_layer] still makes the
    delete call on the staging item and nothing after it; if the delete goes
    through, the publish's exception propagates, otherwise the delete's. *)
Theorem create_scratch_layer_publish_failure g uid opts w it e :
  item_publish it (Raise e) ∈ events (create_scratch_layer json_dumps g uid opts) w →
  ∃ props fp r_del,
    events (create_scratch_layer json_dumps g uid opts) w
      = [content_add props fp (Ok it); item_publish it (Raise e); item_delete it r_del] ∧
    (create_scratch_layer json_dumps g uid opts w).1
      = match r_del with Ok _ => Raise e | Raise e' => Raise e' end.
Proof.
  intros Hin.
  destruct (create_scratch_layer_events g uid opts w)
    as [(Hev & _)|[(e' & Hev & _)|(r_pub & r_del & rest & Hev & _ & Hrest)]];
    rewrite Hev in Hin |- *; [elems|elems|].
  scratch_paths r_pub r_del Hrest; cbn in Hin; elems.
  - by eexists _, _, (Ok _).
  - by eexists _, _, (Raise _).
Qed.

(** X9. When the delete call raises, [create_scratch_layer] propagates the
    exception at once, also after a successful publish: the layers of the
    published item are never looked at and no index is added, key or no
    key. *)
Theorem create_scratch_layer_delete_failure g uid opts w it e :
  item_delete it (Raise e) ∈ events (create_scratch_layer json_dumps g uid opts) w →
  (create_scratch_layer json_dumps g uid opts w).1 = Raise e ∧
  ∃ props fp r_pub,
    events (create_scratch_layer json_dumps g uid opts) w
      = [content_add props fp (Ok it); item_publish it r_pub; item_delete it (Raise e)].
Proof.
  intros Hin.
  destruct (create_scratch_layer_events g uid opts w)
    as [(Hev & _)|[(e' & Hev & _)|(r_pub & r_del & rest & Hev & _ & Hrest)]];
    rewrite Hev in Hin |- *; [elems|elems|].
  scratch_paths r_pub r_del Hrest; cbn in Hin; elems.
  - split; [done|]. by eexists _, _, (Ok _).
  - split; [done|]. by eexists _, _, (Raise _).
Qed.

(** X10. With a key, a published item without sub-layers makes
    [create_scratch_layer] fail with [IndexError]; by then the staging item
    has been deleted. *)
Theorem create_scratch_layer_no_sublayers g uid opts w it :
  item_layers it (Ok []) ∈ events (create_scratch_layer json_dumps g uid opts) w →
  (create_scratch_layer json_dumps g uid opts w).1
    = Raise (IndexError "list index out of range") ∧
  store_items (create_scratch_layer json_dumps g uid opts w).2 !! next_id w = None ∧
  ∃ props fp b,
    events (create_scratch_layer json_dumps g uid opts) w
      = [content_add props fp (Ok (ItemH (next_id w)));
         item_publish (ItemH (next_id w)) (Ok it);
         item_delete (ItemH (next_id w)) (Ok b);
         item_layers it (Ok [])].
Proof.
  intros Hin.
  destruct (create_scratch_layer_events g uid opts w)
    as [(Hev & _)|[(e' & Hev & _)|(r_pub & r_del & rest & Hev & Hgone & Hrest)]];
    rewrite Hev in Hin |- *; [elems|elems|].
  scratch_paths r_pub r_del Hrest; cbn in Hin; elems.
  split; [done|]. split; [by apply Hgone|]. by eexists _, _, _.
Qed.

(** X11. Without a key (also with the empty string), the outcome of
    [create_scratch_layer] rests on the upload, the publish and the delete
    alone: once those three have gone through, it returns the published
    item, and it has made no other call. *)
Theorem create_scratch_layer_without_key g uid opts w it lyr_item b :
  truthy uid = false →
  item_publish it (Ok lyr_item) ∈ events (create_scratch_layer json_dumps g uid opts) w →
  item_delete it (Ok b) ∈ events (create_scratch_layer json_dumps g uid opts) w →
  (create_scratch_layer json_dumps g uid opts w).1 = Ok lyr_item ∧
  ∃ props fp,
    events (create_scratch_layer json_dumps g uid opts) w
      = [content_add props fp (Ok it); item_publish it (Ok lyr_item); item_delete it (Ok b)].
Proof.
  intros Hfalsy Hpub Hdel.
  destruct (create_scratch_layer_events g uid opts w)
    as [(Hev & _)|[(e' & Hev & _)|(r_pub & r_del & rest & Hev & _ & Hrest)]];
    rewrite Hev in Hpub, Hdel |- *; [elems|elems|].
  scratch_paths r_pub r_del Hrest; cbn in Hpub, Hdel; elems.
  split; [done|]. by eexists _, _.
Qed.

(** X12. When [add_to_definition] raises, [create_scratch_layer] propagates
    the exception; the staging item is gone by then. *)
Theorem create_scratch_layer_index_failure g uid opts w lyr d e :
  manager_add_to_definition lyr d (Raise e)
    ∈ events (create_scratch_layer json_dumps g uid opts) w →
  (create_scratch_layer json_dumps g uid opts w).1 = Raise e ∧
  store_items (create_scratch_layer json_dumps g uid opts w).2 !! next_id w = None.
Proof.
  intros Hin.
  destruct (create_scratch_layer_events g uid opts w)
    as [(Hev & _)|[(e' & Hev & _)|(r_pub & r_del & rest & Hev & Hgone & Hrest)]];
    rewrite Hev in Hin; [elems|elems|].
  scratch_paths r_pub r_del Hrest; cbn in Hin; elems.
  split; [done|]. by apply Hgone.
Qed.

(** X13. The item options given to [create_scratch_layer] are the ones the
    upload is made with: type ["GeoJson"], the caller's title and tags or
    the defaults, and every other option as given. *)
Theorem create_scratch_layer_item_options g uid opts w props fp r :
  content_add props fp r ∈ events (create_scratch_layer json_dumps g uid opts) w →
  props !! "type" = Some (VStr "GeoJson") ∧
  props !! "title" = Some (default (VStr "GeoJSON Utils POC") (opts !! "title")) ∧
  props !! "tags" = Some (default (VStr "geojson-utils-poc") (opts !! "tags")) ∧
  ∀ k, k ≠ "type" → k ≠ "title" → k ≠ "tags" → props !! k = opts !! k.
Proof.
  intros Hin.
  assert (props = resolved_properties opts) as ->.
  { destruct (create_scratch_layer_events g uid opts w)
      as [(Hev & _)|[(e' & Hev & _)|(r_pub & r_del & rest & Hev & _ & Hrest)]];
      rewrite Hev in Hin; [elems|by elems|].
    scratch_paths r_pub r_del Hrest; cbn in Hin; by elems. }
  split; [apply resolved_properties_type|].
  split; [apply resolved_properties_title|].
  split; [apply resolved_properties_tags|].
  apply resolved_properties_other.
Qed.

(** ** [create_layer] *)

Lemma create_layer_events g t w :
  let m := create_layer json_dumps g t in
  (∃ e, events m w = [content_clone_items [t] false (Raise e)] ∧ (m w).1 = Raise e)
  ∨ (events m w = [content_clone_items [t] false (Ok [])] ∧
     (m w).1 = Raise (IndexError "list index out of range"))
  ∨ (∃ item items r_lay rest,
       events m w = [content_clone_items [t] false (Ok (item :: items));
                     item_layers item r_lay] ++ rest ∧
       match r_lay with
       | Raise e => rest = [] ∧ (m w).1 = Raise e
       | Ok [] => rest = [] ∧ (m w).1 = Raise (IndexError "list index out of range")
       | Ok (lyr :: lyrs) =>
           (rest = [] ∧ (m w).1 = Raise (TypeError "Object is not JSON serializable"))
           ∨ (∃ props fp e, rest = [content_add props fp (Raise e)] ∧ (m w).1 = Raise e)
           ∨ (∃ props fp staged r_app r_del,
                rest = [content_add props fp (Ok staged);
                        layer_append lyr (item_id staged) "geojson" false None r_app;
                        item_delete staged r_del] ∧
                (m w).1 = match r_del, r_app with
                          | Raise e, _ => Raise e
                          | Ok _, Raise e => Raise e
                          | Ok _, Ok _ => Ok item
                          end)
       end).
Proof.
  cbv zeta. pose proof (create_layer_spec json_dumps g t w) as Hs.
  destruct (create_layer json_dumps g t w) as [r w'] eqn:Hrun.
  assert (Hev : ∀ evs, trace w' = trace w ++ evs →
                       events (create_layer json_dumps g t) w = evs).
  { intros evs Htr. apply events_app. by rewrite Hrun. }
  destruct Hs as [[[|item items]|e] Hs]; cbn [fst].
  - destruct Hs as [Htr ->]. right; left. by rewrite (Hev _ Htr).
  - right; right. destruct Hs as [r_lay Hs]. exists item, items, r_lay.
    destruct r_lay as [[|lyr lyrs]|e].
    + destruct Hs as [Htr ->]. exists []. by rewrite (Hev _ Htr).
    + destruct Hs as (rest & Htr & Hrest). exists rest. rewrite (Hev _ Htr).
      split; [done|]. destruct Hrest as [(_ & -> & ->)|[Hrest|Hrest]]; eauto.
    + destruct Hs as [Htr ->]. exists []. by rewrite (Hev _ Htr).
  - destruct Hs as [Htr ->]. left. exists e. by rewrite (Hev _ Htr).
Qed.

(** Split the third way of [create_layer_events] into its paths. *)
Ltac layer_paths r_lay Hrest :=
  destruct r_lay as [[|?lyr ?lyrs]|?e];
  [ | destruct Hrest as [Hrest|[(?props & ?fp & ?e & Hrest)
                               |(?props & ?fp & ?staged & ?r_app & ?r_del & Hrest)]] | ];
  destruct Hrest as (-> & Hrest).

(** X14. When the clone call raises, [create_layer] makes no other call and
    propagates the exception. *)
Theorem create_layer_clone_failure g t w items copy_data e :
  content_clone_items items copy_data (Raise e) ∈ events (create_layer json_dumps g t) w →
  events (create_layer json_dumps g t) w = [content_clone_items [t] false (Raise e)] ∧
  (create_layer json_dumps g t w).1 = Raise e.
Proof.
  intros Hin.
  destruct (create_layer_events g t w)
    as [(e' & Hev & Hr)|[(Hev & Hr)|(item & its & r_lay & rest & Hev & Hrest)]];
    rewrite Hev in Hin |- *; [by elems|elems|].
  layer_paths r_lay Hrest; cbn in Hin; elems.
Qed.

(** X15. A clone without sub-layers makes [create_layer] fail with
    [IndexError] before anything is uploaded. *)
Theorem create_layer_no_sublayers g t w it :
  item_layers it (Ok []) ∈ events (create_layer json_dumps g t) w →
  (create_layer json_dumps g t w).1 = Raise (IndexError "list index out of range") ∧
  ∃ items,
    events (create_layer json_dumps g t) w
      = [content_clone_items [t] false (Ok (it :: items)); item_layers it (Ok [])].
Proof.
  intros Hin.
  destruct (create_layer_events g t w)
    as [(e' & Hev & Hr)|[(Hev & Hr)|(item & its & r_lay & rest & Hev & Hrest)]];
    rewrite Hev in Hin |- *; [elems|elems|].
  layer_paths r_lay Hrest; cbn in Hin; elems.
  split; [done|]. by eexists.
Qed.

(** X16. When the first load fails in the append call, [create_layer]
    raises instead of returning the clone. *)
Theorem create_layer_append_failure g t w lyr i fmt upsert fld e it b :
  layer_append lyr i fmt upsert fld (Raise e) ∈ events (create_layer json_dumps g t) w →
  item_delete it (Ok b) ∈ events (create_layer json_dumps g t) w →
  (create_layer json_dumps g t w).1 = Raise e.
Proof.
  intros Happ Hdel.
  destruct (create_layer_events g t w)
    as [(e' & Hev & Hr)|[(Hev & Hr)|(item & its & r_lay & rest & Hev & Hrest)]];
    rewrite Hev in Happ, Hdel; [elems|elems|].
  layer_paths r_lay Hrest; cbn in Happ, Hdel; elems. done.
Qed.


(** ** [get_existing_item] *)

(** X18. [get_existing_item] only reads: it returns the first hit the
    search backend has for the query, or [None] when it has none, or the
    exception of the search call; and it leaves items, layers and
    temporary files as they were. *)
Theorem get_existing_item_read_only tags w :
  let tag := if truthy tags then default EmptyString tags else DEFAULT_TAG in
  (get_existing_item tags w).1
    = match next_fault (faults w) with
      | Some e => Raise e
      | None => Ok (head (search_index w (search_query tag)))
      end ∧
  store_items (get_existing_item tags w).2 = store_items w ∧
  store_layers (get_existing_item tags w).2 = store_layers w ∧
  tmpfiles (get_existing_item tags w).2 = tmpfiles w.
Proof.
  cbv zeta. unfold get_existing_item. destruct w as [tf ts si sl ni ps sx fl tr].
  run; cbn; by repeat split.
Qed.

End etl_utils_more.


(** ** The two date formatters *)

Local Open Scope Z_scope.


Lemma all_from_spec n p : ∀ i, all_from n i p = true → ∀ j, i ≤ j < i + Z.of_nat n → p j = true.
Proof.
  induction n as [|k IH]; cbn [all_from]; intros i H j Hj; [lia|].
  apply andb_true_iff in H as [Hk Hr].
  destruct (decide (j = i)) as [->|]; [done|]. apply (IH (i + 1)); [done|lia].
Qed.

Lemma cycle_ok : all_from (Z.to_nat DI400Y) 0 day_ok = true.
Proof. vm_cast_no_check (eq_refl true). Qed.

Lemma days_before_year_shift y k :
  days_before_year (y + 400 * k) = days_before_year y + DI400Y * k.
Proof.
  unfold days_before_year, DI400Y. cbv zeta.
  replace (y + 400 * k - 1) with (y - 1 + (100 * k) * 4) at 2 by lia.
  replace (y + 400 * k - 1) with (y - 1 + (4 * k) * 100) at 2 by lia.
  replace (y + 400 * k - 1) with (y - 1 + k * 400) at 2 by lia.
  rewrite !Z.div_add by lia. lia.
Qed.

Lemma is_leap_shift y k : is_leap (y + 400 * k) = is_leap y.
Proof.
  unfold is_leap.
  replace ((y + 400 * k) mod 4) with (y mod 4)
    by (replace (y + 400 * k) with (y + (100 * k) * 4) by lia; by rewrite Z.mod_add).
  replace ((y + 400 * k) mod 100) with (y mod 100)
    by (replace (y + 400 * k) with (y + (4 * k) * 100) by lia; by rewrite Z.mod_add).
  replace ((y + 400 * k) mod 400) with (y mod 400)
    by (replace (y + 400 * k) with (y + k * 400) by lia; by rewrite Z.mod_add).
  done.
Qed.

Lemma ymd2ord_shift y m d k : ymd2ord (y + 400 * k) m d = ymd2ord y m d + DI400Y * k.
Proof.
  unfold ymd2ord, days_before_month. rewrite days_before_year_shift, is_leap_shift. lia.
Qed.

Lemma ord2ymd_shift n k :
  ord2ymd (n + DI400Y * k) = let '(y, m, d) := ord2ymd n in (y + 400 * k, m, d).
Proof.
  unfold ord2ymd. cbv zeta.
  replace (n + DI400Y * k - 1) with (n - 1 + k * DI400Y) by lia.
  rewrite Z.div_add, Z.mod_add by done.
  repeat match goal with
    | |- context [if ?b then _ else _] => destruct b
    end; f_equal; try f_equal; lia.
Qed.

(** Every ordinal of the years 1..9999 has a date, and that date has the
    ordinal. *)
Lemma ord2ymd_spec n :
  1 ≤ n ≤ MAXORDINAL →
  ∃ y m d, ord2ymd n = (y, m, d) ∧
    1 ≤ y ≤ 9999 ∧ 1 ≤ m ≤ 12 ∧ 1 ≤ d ≤ 31 ∧ ymd2ord y m d = n.
Proof.
  intros Hn. unfold MAXORDINAL in Hn.
  assert (∃ k r, 0 ≤ k ≤ 24 ∧ 0 ≤ r < DI400Y ∧ n = r + 1 + DI400Y * k ∧
                 (k = 24 → r < DI400Y - 366)) as (k & r & Hk & Hr & -> & Hlast).
  { exists ((n - 1) / DI400Y), ((n - 1) mod DI400Y). unfold DI400Y.
    Z.to_euclidean_division_equations. lia. }
  pose proof (all_from_spec _ _ _ cycle_ok r) as Hok.
  rewrite Z2Nat.id in Hok by done. specialize (Hok ltac:(lia)).
  rewrite ord2ymd_shift. unfold day_ok in Hok.
  destruct (ord2ymd (r + 1)) as [[y m] d].
  repeat (apply andb_true_iff in Hok as [Hok ?]).
  exists (y + 400 * k), m, d. split; [done|]. rewrite ymd2ord_shift.
  assert (k = 24 → y ≤ 399).
  { intros Hk24. specialize (Hlast Hk24).
    destruct (r <? DI400Y - 366) eqn:Hlt; [cbn in *; lia|lia]. }
  lia.
Qed.

(** Reading a wall clock and building the datetime of the reading are
    inverse to each other. *)
Lemma wall_seconds_of_wall_seconds s us tz d :
  of_wall_seconds s us tz = Some d →
  wall_seconds d = s ∧ microsecond d = us ∧ tzinfo d = tz ∧
  1 ≤ year d ≤ 9999 ∧ 1 ≤ month d ≤ 12 ∧ 1 ≤ day d ≤ 31 ∧
  0 ≤ hour d < 24 ∧ 0 ≤ minute d < 60 ∧ 0 ≤ second d < 60.
Proof.
  unfold of_wall_seconds. cbv zeta. destruct (in_range s) eqn:Hr; [|done].
  unfold in_range in Hr. apply andb_true_iff in Hr as [H1 H2].
  destruct (ord2ymd_spec (s / 86400) ltac:(lia)) as (y & m & dd & -> & Hy & Hm & Hd & Hord).
  intros [= <-]. unfold wall_seconds. cbn [year month day hour minute second microsecond tzinfo].
  rewrite Hord. repeat split; try done; Z.to_euclidean_division_equations; lia.
Qed.


(** The microseconds and the zone do not show in the formatted string. *)
Lemma strftime_ags_of_wall_seconds s us us' tz tz' :
  strftime_ags <$> of_wall_seconds s us tz = strftime_ags <$> of_wall_seconds s us' tz'.
Proof.
  unfold of_wall_seconds. cbv zeta. destruct (in_range s); [|done].
  by destruct (ord2ymd (s / 86400)) as [[y m] d].
Qed.





Section Dates_props.

Variable local_utcoffset : Z.
Variable truediv : Z → Z → Q.

(** [date_to_ags] formats the UTC reading of the instant of [date]. *)
Lemma date_to_ags_instant date :
  date_to_ags local_utcoffset date
  = strftime_ags <$>
      of_wall_seconds (wall_seconds date - default local_utcoffset (tzinfo date)) 0 None.
Proof.
  unfold date_to_ags, astimezone, timezone_utc. cbv zeta.
  rewrite Z.add_0_r. apply strftime_ags_of_wall_seconds.
Qed.

Lemma fromtimestamp_instant t :
  fromtimestamp local_utcoffset (truediv t 1000)
  = of_wall_seconds (instant_seconds truediv t + local_utcoffset)
      (timestamp_parts (truediv t 1000)).2 None.
Proof.
  unfold fromtimestamp, instant_seconds.
  by destruct (timestamp_parts (truediv t 1000)) as [whole us].
Qed.



End Dates_props.

(** ** Further properties of the two formatters *)

Section Dates_more.

Variable local_utcoffset : Z.
Variable truediv : Z → Z → Q.

(** X19. For aware datetimes the host's time zone plays no part in
    [date_to_ags], and two aware datetimes of the same instant, in whatever
    zones, are formatted alike. *)
Theorem date_to_ags_same_instant (host : Z) d1 d2 off1 off2 :
  tzinfo d1 = Some off1 →
  tzinfo d2 = Some off2 →
  wall_seconds d1 - off1 = wall_seconds d2 - off2 →
  date_to_ags local_utcoffset d1 = date_to_ags host d2.
Proof.
  intros H1 H2 Heq. rewrite !date_to_ags_instant, H1, H2.
  change (default local_utcoffset (Some off1)) with off1.
  change (default host (Some off2)) with off2. by rewrite Heq.
Qed.


(** X21. Outside the valid range [timestamp_to_ags] returns no string: the
    call raises when the instant, read on the local clock or on the UTC
    clock, is not in the years 1 to 9999. *)
Theorem timestamp_to_ags_out_of_range t :
  valid_timestamp local_utcoffset truediv t = false →
  timestamp_to_ags local_utcoffset truediv t = None.
Proof.
  unfold valid_timestamp, timestamp_to_ags. cbv zeta. rewrite fromtimestamp_instant.
  intros Hv.
  destruct (of_wall_seconds _ _ None) as [date|] eqn:Hdate; [|done].
  pose proof Hdate as Hr. unfold of_wall_seconds in Hr. cbv zeta in Hr.
  destruct (in_range (instant_seconds truediv t + local_utcoffset)) eqn:Hlocal; [|done].
  clear Hr. cbn [andb] in Hv.
  apply wall_seconds_of_wall_seconds in Hdate as (Hwall & _ & Htz & _).
  rewrite date_to_ags_instant, Htz, Hwall.
  change (default local_utcoffset None) with local_utcoffset.
  replace (instant_seconds truediv t + local_utcoffset - local_utcoffset)
    with (instant_seconds truediv t) by lia.
  unfold of_wall_seconds. cbv zeta. by rewrite Hv.
Qed.


End Dates_more.


(** * Concrete runs *)

Local Close Scope Z_scope.



Lemma add_geojson_item_properties_witness :
  let opts : gmap string PyVal :=
    {["type" := VStr "Shapefile"; "title" := VStr "Alerts"; "snippet" := VStr "daily"]} in
  (Some : string → option string) "{}" = Some "{}" ∧
  ∃ props r,
    events (add_geojson (GeoJSON := string) Some "{}" opts) example_world
      = [content_add props (tmp_name ".geojson" example_world) r] ∧
    (add_geojson (GeoJSON := string) Some "{}" opts example_world).1 = r ∧
    props !! "type" = Some (VStr "GeoJson") ∧
    props !! "title" = Some (default (VStr "GeoJSON Utils POC") (opts !! "title")) ∧
    props !! "tags" = Some (default (VStr "geojson-utils-poc") (opts !! "tags")) ∧
    ∀ k, k ≠ "type" → k ≠ "title" → k ≠ "tags" → props !! k = opts !! k.
Proof.
  cbv zeta. split; [reflexivity|].
  exact (add_geojson_item_properties Some "{}" _ example_world "{}" eq_refl).
Defined.

Lemma append_to_layer_failure_propagation_witness :
  let m := append_to_layer (GeoJSON := string) Some (LayerH 7) "{}" None in
  let w := set_faults [None; Some sdk_failure] example_world in
  layer_append (LayerH 7) 10 "geojson" false None (Raise sdk_failure) ∈ events m w ∧
  ∃ props fp r_del,
    events m w
      = [content_add props fp (Ok (ItemH 10));
         layer_append (LayerH 7) 10 "geojson" false None (Raise sdk_failure);
         item_delete (ItemH 10) r_del] ∧
    (∀ e, (Raise sdk_failure : Result bool) = Raise e → is_ok r_del →
       (m w).1 = Raise e ∧ store_items (m w).2 !! 10 = None) ∧
    (∀ e', is_ok (Raise (A := bool) sdk_failure) → r_del = Raise e' → (m w).1 = Raise e').
Proof.
  cbv zeta.
  assert (H : layer_append (LayerH 7) 10 "geojson" false None (Raise sdk_failure)
              ∈ events (append_to_layer (GeoJSON := string) Some (LayerH 7) "{}" None)
                       (set_faults [None; Some sdk_failure] example_world)).
  { vm_compute. apply list_elem_of_further, list_elem_of_here. }
  split; [exact H|].
  exact (append_to_layer_failure_propagation Some _ _ _ _ _ _ _ _ _ _ H).
Defined.

Lemma create_scratch_layer_unique_index_witness :
  let m := create_scratch_layer (GeoJSON := string) Some "{}" (Some "uid") ∅ in
  "uid" ≠ EmptyString ∧
  m example_world = (Ok (ItemH 11), (m example_world).2) ∧
  ∃ props fp staged b lyr lyrs b',
    events m example_world
      = [content_add props fp (Ok staged);
         item_publish staged (Ok (ItemH 11));
         item_delete staged (Ok b);
         item_layers (ItemH 11) (Ok (lyr :: lyrs));
         manager_add_to_definition lyr
           (mkAddDict [mkIndex "External UID" (Some "uid") true
                         "External UID for upsert operations"])
           (Ok b')] ∧
    lr_indexes <$> store_layers (m example_world).2 !! layer_id lyr
      = Some [mkIndex "External UID" (Some "uid") true
                "External UID for upsert operations"].
Proof.
  cbv zeta.
  assert (Hne : "uid" ≠ EmptyString) by done.
  assert (Hrun : create_scratch_layer (GeoJSON := string) Some "{}" (Some "uid") ∅ example_world
                 = (Ok (ItemH 11),
                    (create_scratch_layer (GeoJSON := string) Some "{}" (Some "uid") ∅
                       example_world).2))
    by (vm_compute; reflexivity).
  split; [exact Hne|]. split; [exact Hrun|].
  exact (proj1 (create_scratch_layer_unique_index Some "{}" ∅ example_world)
           "uid" (ItemH 11) _ Hne Hrun).
Defined.


Lemma get_existing_item_falsy_tags_witness :
  truthy (Some EmptyString) = false ∧
  ∃ r_search,
    events (get_existing_item (Some EmptyString)) example_world
      = [content_search (search_query "geojson-utils-poc") r_search].
Proof.
  split; [reflexivity|].
  exact (proj1 (get_existing_item_falsy_tags (Some EmptyString) example_world) eq_refl).
Defined.

Local Open Scope Z_scope.

(** A timestamp of 2017, read on a host five hours behind UTC. *)
Example timestamp_to_ags_2017 :
  timestamp_to_ags (-18000) exact_div 1500000000000 = Some "07/14/2017 02:40:00".
Proof. vm_compute. reflexivity. Qed.


Local Close Scope Z_scope.

(** ** Concrete runs for the further properties *)

Ltac found :=
  vm_compute; repeat first [apply list_elem_of_here | apply list_elem_of_further].


Lemma add_geojson_upload_failure_witness :
  let w := set_faults [Some sdk_failure] example_world in
  let m := add_geojson (GeoJSON := string) Some "{}" ∅ in
  next_fault (faults w) = Some sdk_failure ∧
  (m w).1 = Raise sdk_failure ∧
  events m w = [content_add (resolved_properties ∅) (tmp_name ".geojson" w) (Raise sdk_failure)] ∧
  store_items (m w).2 = store_items w ∧
  tmpfiles (m w).2 !! tmp_name ".geojson" w = None.
Proof.
  cbv zeta. split; [reflexivity|].
  exact (add_geojson_upload_failure Some "{}" ∅ (set_faults [Some sdk_failure] example_world)
           "{}" sdk_failure eq_refl eq_refl).
Defined.

Lemma add_geojson_success_witness :
  let m := add_geojson (GeoJSON := string) Some "{}" ∅ in
  next_fault (faults example_world) = None ∧
  (m example_world).1 = Ok (ItemH (next_id example_world)) ∧
  store_items (m example_world).2 !! next_id example_world
    = Some (mkItemRec (resolved_properties ∅) (Some (tmp_name ".geojson" example_world)) []) ∧
  (∀ i, i ≠ next_id example_world →
     store_items (m example_world).2 !! i = store_items example_world !! i) ∧
  tmpfiles (m example_world).2 !! tmp_name ".geojson" example_world = None.
Proof.
  cbv zeta. split; [reflexivity|].
  exact (add_geojson_success Some "{}" ∅ example_world "{}" eq_refl eq_refl).
Defined.

Lemma append_to_layer_delete_failure_wins_witness :
  let m := append_to_layer (GeoJSON := string) Some (LayerH 7) "{}" None in
  let w := set_faults [None; Some sdk_failure; Some other_failure] example_world in
  item_delete (ItemH 10) (Raise other_failure) ∈ events m w ∧
  (m w).1 = Raise other_failure ∧
  is_Some (store_items (m w).2 !! 10).
Proof.
  cbv zeta.
  assert (H : item_delete (ItemH 10) (Raise other_failure)
              ∈ events (append_to_layer (GeoJSON := string) Some (LayerH 7) "{}" None)
                  (set_faults [None; Some sdk_failure; Some other_failure] example_world))
    by found.
  split; [exact H|].
  exact (append_to_layer_delete_failure_wins Some _ _ _ _ _ _ H).
Defined.

Lemma append_to_layer_returns_append_result_witness :
  let m := append_to_layer (GeoJSON := string) Some (LayerH 7) "{}" (Some "uid") in
  layer_append (LayerH 7) 10 "geojson" true (Some "uid") (Ok true) ∈ events m example_world ∧
  item_delete (ItemH 10) (Ok true) ∈ events m example_world ∧
  (m example_world).1 = Ok true.
Proof.
  cbv zeta.
  assert (H1 : layer_append (LayerH 7) 10 "geojson" true (Some "uid") (Ok true)
               ∈ events (append_to_layer (GeoJSON := string) Some (LayerH 7) "{}" (Some "uid"))
                   example_world) by found.
  assert (H2 : item_delete (ItemH 10) (Ok true)
               ∈ events (append_to_layer (GeoJSON := string) Some (LayerH 7) "{}" (Some "uid"))
                   example_world) by found.
  split; [exact H1|]. split; [exact H2|].
  exact (append_to_layer_returns_append_result Some _ _ _ _ _ _ _ _ _ _ _ _ H1 H2).
Defined.

Lemma append_to_layer_upload_failure_witness :
  let m := append_to_layer (GeoJSON := string) Some (LayerH 7) "{}" None in
  let w := set_faults [Some sdk_failure] example_world in
  let props := resolved_properties {["title" := VStr "Dataminr update"]} in
  content_add props (tmp_name ".geojson" w) (Raise sdk_failure) ∈ events m w ∧
  events m w = [content_add props (tmp_name ".geojson" w) (Raise sdk_failure)] ∧
  (m w).1 = Raise sdk_failure ∧
  store_items (m w).2 = store_items w.
Proof.
  cbv zeta.
  assert (H : content_add (resolved_properties {["title" := VStr "Dataminr update"]})
                (tmp_name ".geojson" (set_faults [Some sdk_failure] example_world))
                (Raise sdk_failure)
              ∈ events (append_to_layer (GeoJSON := string) Some (LayerH 7) "{}" None)
                  (set_faults [Some sdk_failure] example_world)) by found.
  split; [exact H|].
  exact (append_to_layer_upload_failure Some _ _ _ _ _ _ _ H).
Defined.

Lemma append_to_layer_staging_properties_witness :
  let m := append_to_layer (GeoJSON := string) Some (LayerH 7) "{}" None in
  let props := resolved_properties {["title" := VStr "Dataminr update"]} in
  let fp := tmp_name ".geojson" example_world in
  content_add props fp (Ok (ItemH 10)) ∈ events m example_world ∧
  fp = tmp_name ".geojson" example_world ∧
  props = {["type" := VStr "GeoJson"; "title" := VStr "Dataminr update";
            "tags" := VStr "geojson-utils-poc"]}.
Proof.
  cbv zeta.
  assert (H : content_add (resolved_properties {["title" := VStr "Dataminr update"]})
                (tmp_name ".geojson" example_world) (Ok (ItemH 10))
              ∈ events (append_to_layer (GeoJSON := string) Some (LayerH 7) "{}" None)
                  example_world) by found.
  split; [exact H|].
  exact (append_to_layer_staging_properties Some _ _ _ _ _ _ _ H).
Defined.

Lemma create_scratch_layer_publish_failure_witness :
  let m := create_scratch_layer (GeoJSON := string) Some "{}" (Some "uid") ∅ in
  let w := set_faults [None; Some sdk_failure] example_world in
  item_publish (ItemH 10) (Raise sdk_failure) ∈ events m w ∧
  ∃ props fp r_del,
    events m w = [content_add props fp (Ok (ItemH 10));
                  item_publish (ItemH 10) (Raise sdk_failure);
                  item_delete (ItemH 10) r_del] ∧
    (m w).1 = match r_del with Ok _ => Raise sdk_failure | Raise e' => Raise e' end.
Proof.
  cbv zeta.
  assert (H : item_publish (ItemH 10) (Raise sdk_failure)
              ∈ events (create_scratch_layer (GeoJSON := string) Some "{}" (Some "uid") ∅)
                  (set_faults [None; Some sdk_failure] example_world)) by found.
  split; [exact H|].
  exact (create_scratch_layer_publish_failure Some _ _ _ _ _ _ H).
Defined.

Lemma create_scratch_layer_delete_failure_witness :
  let m := create_scratch_layer (GeoJSON := string) Some "{}" (Some "uid") ∅ in
  let w := set_faults [None; None; Some sdk_failure] example_world in
  item_delete (ItemH 10) (Raise sdk_failure) ∈ events m w ∧
  (m w).1 = Raise sdk_failure ∧
  ∃ props fp r_pub,
    events m w = [content_add props fp (Ok (ItemH 10)); item_publish (ItemH 10) r_pub;
                  item_delete (ItemH 10) (Raise sdk_failure)].
Proof.
  cbv zeta.
  assert (H : item_delete (ItemH 10) (Raise sdk_failure)
              ∈ events (create_scratch_layer (GeoJSON := string) Some "{}" (Some "uid") ∅)
                  (set_faults [None; None; Some sdk_failure] example_world)) by found.
  split; [exact H|].
  exact (create_scratch_layer_delete_failure Some _ _ _ _ _ _ H).
Defined.

Lemma create_scratch_layer_no_sublayers_witness :
  let m := create_scratch_layer (GeoJSON := string) Some "{}" (Some "uid") ∅ in
  item_layers (ItemH 11) (Ok []) ∈ events m bare_world ∧
  (m bare_world).1 = Raise (IndexError "list index out of range") ∧
  store_items (m bare_world).2 !! next_id bare_world = None ∧
  ∃ props fp b,
    events m bare_world
      = [content_add props fp (Ok (ItemH (next_id bare_world)));
         item_publish (ItemH (next_id bare_world)) (Ok (ItemH 11));
         item_delete (ItemH (next_id bare_world)) (Ok b);
         item_layers (ItemH 11) (Ok [])].
Proof.
  cbv zeta.
  assert (H : item_layers (ItemH 11) (Ok [])
              ∈ events (create_scratch_layer (GeoJSON := string) Some "{}" (Some "uid") ∅)
                  bare_world) by found.
  split; [exact H|].
  exact (create_scratch_layer_no_sublayers Some _ _ _ _ _ H).
Defined.

Lemma create_scratch_layer_without_key_witness :
  let m := create_scratch_layer (GeoJSON := string) Some "{}" (Some EmptyString) ∅ in
  truthy (Some EmptyString) = false ∧
  item_publish (ItemH 10) (Ok (ItemH 11)) ∈ events m bare_world ∧
  item_delete (ItemH 10) (Ok true) ∈ events m bare_world ∧
  (m bare_world).1 = Ok (ItemH 11) ∧
  ∃ props fp,
    events m bare_world
      = [content_add props fp (Ok (ItemH 10)); item_publish (ItemH 10) (Ok (ItemH 11));
         item_delete (ItemH 10) (Ok true)].
Proof.
  cbv zeta.
  assert (H1 : item_publish (ItemH 10) (Ok (ItemH 11))
               ∈ events (create_scratch_layer (GeoJSON := string) Some "{}"
                           (Some EmptyString) ∅) bare_world) by found.
  assert (H2 : item_delete (ItemH 10) (Ok true)
               ∈ events (create_scratch_layer (GeoJSON := string) Some "{}"
                           (Some EmptyString) ∅) bare_world) by found.
  split; [reflexivity|]. split; [exact H1|]. split; [exact H2|].
  exact (create_scratch_layer_without_key Some "{}" (Some EmptyString) ∅ bare_world _ _ _
           eq_refl H1 H2).
Defined.

Lemma create_scratch_layer_index_failure_witness :
  let m := create_scratch_layer (GeoJSON := string) Some "{}" (Some "uid") ∅ in
  let w := set_faults [None; None; None; None; Some sdk_failure] example_world in
  manager_add_to_definition (LayerH 12) (mkAddDict [external_uid_index (Some "uid")])
    (Raise sdk_failure) ∈ events m w ∧
  (m w).1 = Raise sdk_failure ∧
  store_items (m w).2 !! next_id w = None.
Proof.
  cbv zeta.
  assert (H : manager_add_to_definition (LayerH 12)
                (mkAddDict [external_uid_index (Some "uid")]) (Raise sdk_failure)
              ∈ events (create_scratch_layer (GeoJSON := string) Some "{}" (Some "uid") ∅)
                  (set_faults [None; None; None; None; Some sdk_failure] example_world))
    by found.
  split; [exact H|].
  exact (create_scratch_layer_index_failure Some _ _ _ _ _ _ _ H).
Defined.

Lemma create_scratch_layer_item_options_witness :
  let opts : gmap string PyVal := {["title" := VStr "Alerts"; "snippet" := VStr "daily"]} in
  let m := create_scratch_layer (GeoJSON := string) Some "{}" None opts in
  let props := resolved_properties opts in
  content_add props (tmp_name ".geojson" example_world) (Ok (ItemH 10))
    ∈ events m example_world ∧
  props !! "type" = Some (VStr "GeoJson") ∧
  props !! "title" = Some (default (VStr "GeoJSON Utils POC") (opts !! "title")) ∧
  props !! "tags" = Some (default (VStr "geojson-utils-poc") (opts !! "tags")) ∧
  ∀ k, k ≠ "type" → k ≠ "title" → k ≠ "tags" → props !! k = opts !! k.
Proof.
  cbv zeta.
  assert (H : content_add
                (resolved_properties {["title" := VStr "Alerts"; "snippet" := VStr "daily"]})
                (tmp_name ".geojson" example_world) (Ok (ItemH 10))
              ∈ events (create_scratch_layer (GeoJSON := string) Some "{}" None
                          {["title" := VStr "Alerts"; "snippet" := VStr "daily"]})
                  example_world) by found.
  split; [exact H|].
  exact (create_scratch_layer_item_options Some _ _ _ _ _ _ _ H).
Defined.

Lemma create_layer_clone_failure_witness :
  let m := create_layer (GeoJSON := string) Some "{}" (ItemH 99) in
  content_clone_items [ItemH 99] false (Raise (SdkError "item does not exist"))
    ∈ events m example_world ∧
  events m example_world
    = [content_clone_items [ItemH 99] false (Raise (SdkError "item does not exist"))] ∧
  (m example_world).1 = Raise (SdkError "item does not exist").
Proof.
  cbv zeta.
  assert (H : content_clone_items [ItemH 99] false (Raise (SdkError "item does not exist"))
              ∈ events (create_layer (GeoJSON := string) Some "{}" (ItemH 99)) example_world)
    by found.
  split; [exact H|].
  exact (create_layer_clone_failure Some _ _ _ _ _ _ H).
Defined.

Lemma create_layer_no_sublayers_witness :
  let m := create_layer (GeoJSON := string) Some "{}" (ItemH 4) in
  item_layers (ItemH 10) (Ok []) ∈ events m bare_world ∧
  (m bare_world).1 = Raise (IndexError "list index out of range") ∧
  ∃ items,
    events m bare_world
      = [content_clone_items [ItemH 4] false (Ok (ItemH 10 :: items));
         item_layers (ItemH 10) (Ok [])].
Proof.
  cbv zeta.
  assert (H : item_layers (ItemH 10) (Ok [])
              ∈ events (create_layer (GeoJSON := string) Some "{}" (ItemH 4)) bare_world)
    by found.
  split; [exact H|].
  exact (create_layer_no_sublayers Some _ _ _ _ H).
Defined.

Lemma create_layer_append_failure_witness :
  let m := create_layer (GeoJSON := string) Some "{}" (ItemH 3) in
  let w := set_faults [None; None; None; Some sdk_failure] example_world in
  layer_append (LayerH 11) 12 "geojson" false None (Raise sdk_failure) ∈ events m w ∧
  item_delete (ItemH 12) (Ok true) ∈ events m w ∧
  (m w).1 = Raise sdk_failure.
Proof.
  cbv zeta.
  assert (H1 : layer_append (LayerH 11) 12 "geojson" false None (Raise sdk_failure)
               ∈ events (create_layer (GeoJSON := string) Some "{}" (ItemH 3))
                   (set_faults [None; None; None; Some sdk_failure] example_world)) by found.
  assert (H2 : item_delete (ItemH 12) (Ok true)
               ∈ events (create_layer (GeoJSON := string) Some "{}" (ItemH 3))
                   (set_faults [None; None; None; Some sdk_failure] example_world)) by found.
  split; [exact H1|]. split; [exact H2|].
  exact (create_layer_append_failure Some _ _ _ _ _ _ _ _ _ _ _ H1 H2).
Defined.

Local Open Scope Z_scope.

Lemma date_to_ags_same_instant_witness :
  let d1 := mkdatetime 2020 2 29 23 30 0 0 (Some (-18000)) in
  let d2 := mkdatetime 2020 3 1 6 30 0 0 (Some 7200) in
  tzinfo d1 = Some (-18000) ∧ tzinfo d2 = Some 7200 ∧
  wall_seconds d1 - -18000 = wall_seconds d2 - 7200 ∧
  date_to_ags 3600 d1 = date_to_ags 0 d2.
Proof.
  cbv zeta. split; [reflexivity|]. split; [reflexivity|]. split; [reflexivity|].
  exact (date_to_ags_same_instant 3600 0
           (mkdatetime 2020 2 29 23 30 0 0 (Some (-18000)))
           (mkdatetime 2020 3 1 6 30 0 0 (Some 7200)) (-18000) 7200
           eq_refl eq_refl eq_refl).
Defined.


Lemma timestamp_to_ags_out_of_range_witness :
  valid_timestamp 0 exact_div 253402300800000 = false ∧
  timestamp_to_ags 0 exact_div 253402300800000 = None.
Proof.
  assert (H : valid_timestamp 0 exact_div 253402300800000 = false)
    by (vm_compute; reflexivity).
  split; [exact H|].
  exact (timestamp_to_ags_out_of_range 0 exact_div 253402300800000 H).
Defined.

